(** * cherry: reward shaping and episode statistics

    A shallow embedding of

    - [discount_rewards] and [generalized_advantage_estimate], the list
      implementations of the discounted return and of the generalized
      advantage estimate in [tests/rewards_tests.py];
    - [Logger._episodes_length_rewards], [Logger._episodes_stats] and
      [Logger._steps_stats] of [cherry/envs/logger_wrapper.py].

    Python's numbers are duck typed (the functions run on ints, floats and
    tensors alike), so the embedding is parametric in a type of numbers with
    the operations the code uses; the algebraic facts a proof needs are the
    laws of a commutative ring, assumed only where they are used.  Instances
    are given for exact integers ([Z]), for exact rationals ([Qc]) and for
    binary64 floats ([float], operations only: floats are no ring).  What
    the code computes is stated in any arithmetic, binary64 included; where
    a property needs the ring laws it says so, and the inputs on which
    binary64 breaks it are given. *)

From Stdlib Require Import String List Bool Arith ZArith Lia.
From Stdlib Require Import QArith Qcanon Ring.
From Stdlib Require Import PrimFloat.
Import ListNotations.

Close Scope Qc_scope.
Close Scope Q_scope.
Open Scope nat_scope.

(** ** Numbers *)

Class Num (A : Type) : Type := {
  num0 : A;                 (* 0, 0.0 *)
  num1 : A;                 (* 1.0 *)
  nadd : A -> A -> A;       (* x + y *)
  nmul : A -> A -> A;       (* x * y *)
  nsub : A -> A -> A;       (* x - y *)
  nopp : A -> A             (* -x *)
}.

Class NumLaws (A : Type) {N : Num A} : Prop := {
  num_ring : ring_theory num0 num1 nadd nmul nsub nopp (@eq A)
}.

Declare Scope num_scope.
Delimit Scope num_scope with num.
Notation "x + y" := (nadd x y) : num_scope.
Notation "x * y" := (nmul x y) : num_scope.
Notation "x - y" := (nsub x y) : num_scope.

#[export] Instance Z_Num : Num Z :=
  {| num0 := 0%Z; num1 := 1%Z; nadd := Z.add; nmul := Z.mul;
     nsub := Z.sub; nopp := Z.opp |}.

#[export] Instance Z_NumLaws : NumLaws Z.
Proof. constructor. exact Zth. Qed.

#[export] Instance Qc_Num : Num Qc :=
  {| num0 := Q2Qc 0; num1 := Q2Qc 1; nadd := Qcplus; nmul := Qcmult;
     nsub := Qcminus; nopp := Qcopp |}.

#[export] Instance Qc_NumLaws : NumLaws Qc.
Proof. constructor. exact Qcrt. Qed.

#[export] Instance float_Num : Num PrimFloat.float :=
  {| num0 := 0%float; num1 := 1%float; nadd := PrimFloat.add;
     nmul := PrimFloat.mul; nsub := PrimFloat.sub; nopp := PrimFloat.opp |}.

(** ** Exceptions *)

Inductive exn : Type :=
| IndexError
| AssertionError (msg : string)
| AttributeError.

Inductive result (T : Type) : Type :=
| Ok (v : T)
| Raise (e : exn).

Arguments Ok {T} v.
Arguments Raise {T} e.

Definition bind {T U : Type} (c : result T) (k : T -> result U) : result U :=
  match c with
  | Ok v => k v
  | Raise e => Raise e
  end.

Notation "x <- c ;; k" := (bind c (fun x => k))
  (at level 61, c at next level, right associativity).
Notation "' p <- c ;; k" := (bind c (fun x => match x with p => k end))
  (at level 61, p pattern, c at next level, right associativity).

(** [l[i]] for [i >= 0]. *)
Definition index {T : Type} (l : list T) (i : nat) : result T :=
  match nth_error l i with
  | Some x => Ok x
  | None => Raise IndexError
  end.

(** [for i in its: s = body(s, i)] *)
Fixpoint for_in {S I : Type} (body : S -> I -> result S) (its : list I) (s : S)
  : result S :=
  match its with
  | [] => Ok s
  | i :: its' => s' <- body s i ;; for_in body its' s'
  end.

(** [reversed(range(n))] *)
Definition reversed_range (n : nat) : list nat := rev (seq 0 n).

(** ** tests/rewards_tests.py *)

Section Rewards.

Context {A : Type} {N : Num A}.
Local Open Scope num_scope.

(** *** [discount_rewards] *)

(** The body of the loop, on the state [(R, discounted)]. *)
Definition discount_rewards_body (gamma : A) (rewards : list A)
  (dones : list bool) (st : A * list A) (t : nat) : result (A * list A) :=
  let '(R, discounted) := st in
  d <- index dones t ;;
  let R := if (d : bool) then R * num0 else R in
  r <- index rewards t ;;
  let R := r + gamma * R in
  Ok (R, R :: discounted).

Definition discount_rewards (gamma : A) (rewards : list A)
  (dones : list bool) (bootstrap : A) : result (list A) :=
  let R := bootstrap in
  let discounted := [] in
  let length := List.length rewards in
  st <- for_in (discount_rewards_body gamma rewards dones)
               (reversed_range length) (R, discounted) ;;
  Ok (snd st).

(** The backward recurrence of the specification: the running return [R]
    starts at [bootstrap]; going from the last timestep to the first, [R]
    is reset to zero at a terminal step, then [R = rewards[t] + gamma * R]
    is recorded as [returns[t]].  The result is the pair of the running
    return and the returns recorded so far. *)
Fixpoint discount_backward (gamma : A) (steps : list (A * bool))
  (bootstrap : A) : A * list A :=
  match steps with
  | [] => (bootstrap, [])
  | (r, d) :: later =>
      let '(R, returns) := discount_backward gamma later bootstrap in
      let R := if (d : bool) then num0 else R in
      let R := r + gamma * R in
      (R, R :: returns)
  end.

Definition discount_spec (gamma : A) (rewards : list A) (dones : list bool)
  (bootstrap : A) : list A :=
  snd (discount_backward gamma (combine rewards dones) bootstrap).

(** *** [generalized_advantage_estimate] *)

Definition gae_msg : string := "GAE needs as many rewards, values and dones.".

(** The body of the loop, on the state [(advantages, advantage, next_value)].
    The done flags are numbers here: the code computes [1.0 - dones[i]]. *)
Definition gae_body (gamma tau : A) (rewards dones values : list A)
  (st : list A * A * A) (i : nat) : result (list A * A * A) :=
  let '(advantages, advantage, next_value) := st in
  r <- index rewards i ;;
  d <- index dones i ;;
  v <- index values i ;;
  let td_error := r + (num1 - d) * gamma * next_value - v in
  d' <- index dones i ;;
  let advantage := advantage * tau * gamma * (num1 - d') + td_error in
  let advantages := advantage :: advantages in
  v' <- index values i ;;
  let next_value := v' in
  Ok (advantages, advantage, next_value).

Definition generalized_advantage_estimate (gamma tau : A)
  (rewards dones values : list A) (next_value : A) : result (list A) :=
  if negb ((length values =? length rewards)
           && (length rewards =? length dones))
  then Raise (AssertionError gae_msg)
  else
    let advantages := [] in
    let advantage := num0 in
    st <- for_in (gae_body gamma tau rewards dones values)
                 (reversed_range (length rewards))
                 (advantages, advantage, next_value) ;;
    Ok (fst (fst st)).

(** The backward recurrence of the specification, on the timesteps
    [(rewards[t], dones[t], values[t])]: [advantage] starts at 0 and the
    rolling [next_value] at the bootstrap of the caller.  The result is
    [(advantage, next_value, advantages)]. *)
Fixpoint gae_backward (gamma tau : A) (steps : list (A * A * A))
  (next_value : A) : A * A * list A :=
  match steps with
  | [] => (num0, next_value, [])
  | (r, d, v) :: later =>
      let '(advantage, next_value, advantages) :=
        gae_backward gamma tau later next_value in
      let td_error := r + (num1 - d) * gamma * next_value - v in
      let advantage := advantage * tau * gamma * (num1 - d) + td_error in
      (advantage, v, advantage :: advantages)
  end.

Definition gae_spec (gamma tau : A) (rewards dones values : list A)
  (next_value : A) : list A :=
  snd (gae_backward gamma tau (combine (combine rewards dones) values)
         next_value).


(** [rewards[t] + (1 - dones[t]) * gamma * v - values[t]] *)
Definition td_error (gamma r d v v_next : A) : A :=
  r + (num1 - d) * gamma * v_next - v.

(** *** Sums of discounted rewards *)

Fixpoint npow (x : A) (n : nat) : A :=
  match n with
  | O => num1
  | S n' => x * npow x n'
  end.

(** [f 0 + f 1 + ... + f (n-1)] *)
Fixpoint nsum (f : nat -> A) (n : nat) : A :=
  match n with
  | O => num0
  | S n' => nsum f n' + f n'
  end.

(** [sum over i < T of gamma^i * rewards[i]] *)
Definition discounted_sum (gamma : A) (rewards : list A) : A :=
  nsum (fun i => npow gamma i * nth i rewards num0) (length rewards).

(** [l[start:stop]] for [start, stop >= 0]. *)
Definition slice {T : Type} (l : list T) (start stop : nat) : list T :=
  firstn (stop - start) (skipn start l).


End Rewards.

(** ** cherry/envs/logger_wrapper.py *)

Section Logger.

Context {A : Type} {N : Num A}.
Local Open Scope num_scope.

(** What [Logger.step] records of one [env.step]: it appends the reward to
    [all_rewards] and the done flag to [all_dones] in the same call, so the
    two lists stay aligned and a history is the list of these pairs,
    [zip(all_rewards, all_dones)].  The pairs are of three kinds:
    - [Plain r d], a number beside a Python [bool], as a plain env returns;
    - [Batched r d], two numpy values, as a vectorized env returns, given by
      their flat views (a numpy scalar is an array of one element);
    - [Mixed r d], a Python float beside a numpy done flag (a [numpy.bool_]
      or an array), which [Logger.step] accepts (line 159) and which has no
      [flat] to read the reward from.
    A reward array beside a Python [bool] is none of the kinds the docstring
    of [_episodes_length_rewards] names and has no entry. *)
Inductive step_entry : Type :=
| Plain (r : A) (d : bool)
| Batched (r : list A) (d : list bool)
| Mixed (r : A) (d : list bool).

(** [a.flat[0]] *)
Definition flat0 {T : Type} (a : list T) : result T := index a 0.

(** Lines 50-52: [r, d] after the [isinstance(d, bool)] test. *)
Definition first_element (e : step_entry) : result (A * bool) :=
  match e with
  | Plain r d => Ok (r, d)
  | Batched r d =>
      d0 <- flat0 d ;;
      r0 <- flat0 r ;;
      Ok (r0, d0)
  | Mixed r d =>
      d0 <- flat0 d ;;
      Raise AttributeError
  end.

Record elr_state : Type := {
  episode_rewards : list A;
  episode_lengths : list nat;
  accum : A;
  length_ : nat
}.

Definition elr_body (st : elr_state) (e : step_entry) : result elr_state :=
  '(r, d) <- first_element e ;;
  if negb d
  then Ok {| episode_rewards := episode_rewards st;
             episode_lengths := episode_lengths st;
             accum := accum st + r;
             length_ := (length_ st + 1)%nat |}
  else Ok {| episode_rewards := episode_rewards st ++ [accum st];
             episode_lengths := episode_lengths st ++ [length_ st];
             accum := num0;
             length_ := 0 |}.

Definition _episodes_length_rewards (steps : list step_entry)
  : result (list A * list nat) :=
  st <- for_in elr_body steps
          {| episode_rewards := []; episode_lengths := [];
             accum := num0; length_ := 0 |} ;;
  if 0 <? length_ st
  then Ok (episode_rewards st ++ [accum st],
           episode_lengths st ++ [length_ st])
  else Ok (episode_rewards st, episode_lengths st).

(** [accum] after [accum = 0.0] and [accum += r] for each [r] of [rs]. *)
Definition accumulated (rs : list A) : A := fold_left nadd rs num0.

(** The state of the loop with [ers] and [els] put before the episodes
    found so far. *)
Definition with_earlier (ers : list A) (els : list nat) (st : elr_state)
  : elr_state :=
  {| episode_rewards := ers ++ episode_rewards st;
     episode_lengths := els ++ episode_lengths st;
     accum := accum st;
     length_ := length_ st |}.

(** The done flag the scan of [_episodes_stats] tests (lines 70-72). *)
Definition done_flag (e : step_entry) : result bool :=
  match e with
  | Plain _ d => Ok d
  | Batched _ d => flat0 d
  | Mixed _ d => flat0 d
  end.

(** The body of the scan, on the state [(start, end, count)]. *)
Definition stats_body (ep_interval : Z) (st : nat * nat * Z)
  (item : nat * step_entry) : result (nat * nat * Z) :=
  let '(start, end_, count) := st in
  let '(i, e) := item in
  d <- done_flag e ;;
  if (d : bool)
  then
    let count := (count + 1)%Z in
    let end_ := if end_ =? 0 then i else end_ in
    let start := if (ep_interval + 1 <=? count)%Z then (i + 1)%nat else start in
    Ok (start, end_, count)
  else Ok (start, end_, count).

(** A length in the statistics: an [int], or the float of the default
    [[0.0]]. *)
Inductive length_value : Type :=
| IntLength (n : nat)
| FloatLength (x : A).

Record stats : Type := {
  stats_episode_rewards : list A;
  stats_episode_lengths : list length_value
}.

(** [list(enumerate(l))] *)
Definition enumerate {T : Type} (l : list T) : list (nat * T) :=
  combine (seq 0 (length l)) l.

Definition _episodes_stats (all_steps : list step_entry) (ep_interval : Z)
  : result stats :=
  '(start, end_, _) <- for_in (stats_body ep_interval)
                         (rev (enumerate all_steps)) (0, 0, 0%Z) ;;
  '(rewards, lengths) <-
    _episodes_length_rewards (slice all_steps start end_) ;;
  Ok {| stats_episode_rewards :=
          if 0 <? length rewards then rewards else [num0];
        stats_episode_lengths :=
          if 0 <? length lengths then map IntLength lengths
          else [FloatLength num0] |}.

(** Two recorded steps agree on the first flattened element of the reward
    and of the done flag; the other elements of an array are arbitrary. *)
Inductive agree_first : step_entry -> step_entry -> Prop :=
| agree_plain r d : agree_first (Plain r d) (Plain r d)
| agree_batched r d rs ds rs' ds' :
    agree_first (Batched (r :: rs) (d :: ds)) (Batched (r :: rs') (d :: ds'))
| agree_mixed r d ds ds' :
    agree_first (Mixed r (d :: ds)) (Mixed r (d :: ds')).

End Logger.

Arguments step_entry A : clear implicits.
Arguments elr_state A : clear implicits.
Arguments stats A : clear implicits.

(** ** The scenario of [TestRewards.test_discount] *)

(** Five transitions of reward 8, discounted with [GAMMA = 0.5]. *)
Definition test_rewards : list Qc := map Q2Qc [8; 8; 8; 8; 8]%Q.
Definition test_gamma : Qc := Q2Qc (1 # 2).



(** ** Further definitions *)

Section Numbers.

Context {A : Type} {N : Num A}.
Local Open Scope num_scope.

(** A Python [bool] as a number: [1.0 - True] is [0.0], [1.0 - False] is
    [1.0]. *)
Definition of_bool (b : bool) : A := if b then num1 else num0.

End Numbers.

(** *** The recurrences as the code computes them *)

Section RewardsComputed.

Context {A : Type} {N : Num A}.
Local Open Scope num_scope.

(** The backward recurrence of [discount_rewards] with the reset as line 32
    has it: at a terminal step the running return is multiplied by [0.0],
    where the specification sets it to zero.  The result is the pair of the
    running return and the returns recorded so far. *)
Fixpoint discount_computed (gamma : A) (steps : list (A * bool))
  (bootstrap : A) : A * list A :=
  match steps with
  | [] => (bootstrap, [])
  | (r, d) :: later =>
      let '(R, returns) := discount_computed gamma later bootstrap in
      let R := if (d : bool) then R * num0 else R in
      let R := r + gamma * R in
      (R, R :: returns)
  end.

Definition discount_returns (gamma : A) (rewards : list A)
  (dones : list bool) (bootstrap : A) : list A :=
  snd (discount_computed gamma (combine rewards dones) bootstrap).



End RewardsComputed.

Section LoggerEpisodes.

Context {A : Type} {N : Num A}.
Local Open Scope num_scope.

(** A recorded step is terminal when its done flag, the first one of a
    batch, is set. *)
Definition is_terminal (e : step_entry A) : bool :=
  match done_flag e with
  | Ok true => true
  | _ => false
  end.

(** The exception lines 51-52 raise on a step, if any: [IndexError] for
    [a.flat[0]] on an empty array, [AttributeError] for [r.flat] on a Python
    float.  The done flag is read first. *)
Definition read_error (e : step_entry A) : option exn :=
  match e with
  | Plain _ _ => None
  | Batched _ [] => Some IndexError
  | Batched [] _ => Some IndexError
  | Batched _ _ => None
  | Mixed _ [] => Some IndexError
  | Mixed _ _ => Some AttributeError
  end.

(** A step lines 51-52 cannot read. *)
Definition unreadable (e : step_entry A) : bool :=
  match read_error e with
  | Some _ => true
  | None => false
  end.

(** A step whose done array is empty: [d.flat[0]] raises. *)
Definition empty_done (e : step_entry A) : bool :=
  match e with
  | Plain _ _ => false
  | Batched _ [] => true
  | Batched _ _ => false
  | Mixed _ [] => true
  | Mixed _ _ => false
  end.

Definition terminal_count (steps : list (step_entry A)) : nat :=
  length (filter is_terminal steps).

(** The rewards of the non-terminal steps, in order. *)
Definition running_rewards (steps : list (step_entry A)) : list A :=
  flat_map (fun e => match first_element e with
                     | Ok (r, false) => [r]
                     | _ => []
                     end) steps.

(** The index of the first and of the last terminal step. *)
Fixpoint first_terminal (steps : list (step_entry A)) : option nat :=
  match steps with
  | [] => None
  | e :: later =>
      if is_terminal e then Some 0 else option_map S (first_terminal later)
  end.

Fixpoint last_terminal (steps : list (step_entry A)) : option nat :=
  match steps with
  | [] => None
  | e :: later =>
      match last_terminal later with
      | Some i => Some (S i)
      | None => if is_terminal e then Some 0 else None
      end
  end.

(** Where the scan of [_episodes_stats] leaves [start] and [end]. *)
Definition window_start (ep_interval : Z) (steps : list (step_entry A))
  : nat :=
  if (ep_interval + 1 <=? Z.of_nat (terminal_count steps))%Z
  then match first_terminal steps with
       | Some i => i + 1
       | None => 0
       end
  else 0.

Definition window_end (steps : list (step_entry A)) : nat :=
  match last_terminal steps with
  | Some i => i
  | None => 0
  end.

(** The statistics [_episodes_stats] builds from the steps of its window
    (lines 81-86). *)
Definition window_stats (window : list (step_entry A)) : result (stats A) :=
  '(rewards, lengths) <- _episodes_length_rewards window ;;
  Ok {| stats_episode_rewards :=
          if 0 <? length rewards then rewards else [num0];
        stats_episode_lengths :=
          if 0 <? length lengths then map IntLength lengths
          else [FloatLength num0] |}.

End LoggerEpisodes.

(** *** [Logger._steps_stats] *)

(** A Python [dict] with string keys, as the list of its items in insertion
    order; a key occurs once. *)
Definition dict (V : Type) : Type := list (string * V).

Inductive logger_exn : Type :=
| Loop (e : exn)
| KeyError (key : string).

Inductive outcome (T : Type) : Type :=
| Done (v : T)
| Failed (e : logger_exn).

Arguments Done {T} v.
Arguments Failed {T} e.

Definition obind {T U : Type} (c : outcome T) (k : T -> outcome U)
  : outcome U :=
  match c with
  | Done v => k v
  | Failed e => Failed e
  end.

Notation "x <~ c ;; k" := (obind c (fun x => k))
  (at level 61, c at next level, right associativity).
Notation "' p <~ c ;; k" := (obind c (fun x => match x with p => k end))
  (at level 61, p pattern, c at next level, right associativity).

Definition lift {T : Type} (c : result T) : outcome T :=
  match c with
  | Ok v => Done v
  | Raise e => Failed (Loop e)
  end.

(** [d[key]] *)
Fixpoint dict_get {V : Type} (d : dict V) (key : string) : outcome V :=
  match d with
  | [] => Failed (KeyError key)
  | (k, v) :: d' => if String.eqb k key then Done v else dict_get d' key
  end.

(** [d[key] = v]: a key of the dict keeps its place, a new one goes last. *)
Fixpoint dict_set {V : Type} (d : dict V) (key : string) (v : V) : dict V :=
  match d with
  | [] => [(key, v)]
  | (k, v') :: d' =>
      if String.eqb k key then (k, v) :: d' else (k, v') :: dict_set d' key v
  end.

(** [d.keys()] *)
Definition dict_keys {V : Type} (d : dict V) : list string := map fst d.

(** [l[start:]] for any int [start]: a negative [start] counts from the
    end, and both ends are clamped. *)
Definition slice_from_int {T : Type} (l : list T) (start : Z) : list T :=
  if (start <? 0)%Z
  then skipn (length l - Z.to_nat (- start)) l
  else skipn (Z.to_nat start) l.

(** [for key in keys: s = body(s, key)] *)
Fixpoint for_keys {S : Type} (body : S -> string -> outcome S)
  (keys : list string) (s : S) : outcome S :=
  match keys with
  | [] => Done s
  | key :: keys' => s' <~ body s key ;; for_keys body keys' s'
  end.

Section LoggerSteps.

Context {A : Type} {N : Num A}.

(** A value of the dict of statistics. *)
Inductive stat_value : Type :=
| FloatList (l : list A)
| IntList (l : list nat)
| IntValue (n : nat).

(** Lines 89-90: [all_rewards[-interval:]] and [all_dones[-interval:]], on
    the aligned history. *)
Definition steps_window (interval : Z) (all_steps : list (step_entry A))
  : list (step_entry A) :=
  slice_from_int all_steps (- interval).

(** The body of the loop over the logged keys, on the state
    [(stats, values_idx)]. *)
Definition steps_stats_body (update_index : bool) (values : dict (list A))
  (st : dict stat_value * dict Z) (key : string)
  : outcome (dict stat_value * dict Z) :=
  let '(stats, values_idx) := st in
  idx <~ dict_get values_idx key ;;
  vs <~ dict_get values key ;;
  let stats := dict_set stats key (FloatList (slice_from_int vs idx)) in
  if update_index
  then
    vs' <~ dict_get values key ;;
    Done (stats, dict_set values_idx key (Z.of_nat (length vs') - 1)%Z)
  else Done (stats, values_idx).

(** The result is the dict of statistics and [values_idx] as the call
    leaves it. *)
Definition _steps_stats (interval : Z) (all_steps : list (step_entry A))
  (values : dict (list A)) (values_idx : dict Z) (update_index : bool)
  : outcome (dict stat_value * dict Z) :=
  '(rewards, lengths) <~
    lift (_episodes_length_rewards (steps_window interval all_steps)) ;;
  let stats :=
    [("episode_rewards"%string, FloatList rewards);
     ("episode_lengths"%string, IntList lengths);
     ("num_episodes"%string, IntValue (length rewards))] in
  for_keys (steps_stats_body update_index values) (dict_keys values)
    (stats, values_idx).

End LoggerSteps.

Arguments stat_value A : clear implicits.

(** A history of six steps with terminal steps at 1, 2 and 4. *)
Definition test_history : list (step_entry Z) :=
  [Plain 1%Z false; Plain 2%Z true; Batched [3; 9]%Z [true; false];
   Plain 4%Z false; Plain 5%Z true; Plain 6%Z false].

(** Two logged keys with their values and indices. *)
Definition test_values : dict (list Z) :=
  [("loss"%string, [1; 2; 3]%Z); ("lr"%string, [7]%Z)].
Definition test_values_idx : dict Z :=
  [("loss"%string, 1%Z); ("lr"%string, 0%Z)].

(** * Properties *)

(** ** The error monad and the loops *)

Lemma index_Ok {T : Type} (l : list T) (i : nat) (x : T) :
  nth_error l i = Some x -> index l i = Ok x.
Proof. intros H. unfold index. now rewrite H. Qed.

Lemma reversed_range_S (n : nat) : reversed_range (S n) = n :: reversed_range n.
Proof.
  unfold reversed_range. rewrite seq_S, rev_app_distr. reflexivity.
Qed.

(** A loop over [reversed(range(n))] with an invariant indexed by the number
    of timesteps still to process. *)
Lemma for_in_reversed_range {S : Type} (body : S -> nat -> result S)
  (inv : nat -> S) (n : nat) :
  (forall k, k < n -> body (inv (Datatypes.S k)) k = Ok (inv k)) ->
  for_in body (reversed_range n) (inv n) = Ok (inv 0).
Proof.
  induction n as [|n IH]; intros Hbody.
  - reflexivity.
  - rewrite reversed_range_S. cbn [for_in].
    rewrite Hbody by lia. cbn [bind].
    apply IH. intros k Hk. apply Hbody. lia.
Qed.

Lemma skipn_nth_error {T : Type} (l : list T) (k : nat) (x : T) :
  nth_error l k = Some x -> skipn k l = x :: skipn (S k) l.
Proof.
  revert l. induction k as [|k IH]; intros [|y l] H; try discriminate.
  - now inversion H.
  - cbn [nth_error] in H. change (skipn (S k) (y :: l)) with (skipn k l).
    now rewrite (IH l H).
Qed.

Lemma nth_error_combine {T U : Type} (l : list T) (l' : list U) (k : nat)
  (x : T) (y : U) :
  nth_error l k = Some x -> nth_error l' k = Some y ->
  nth_error (combine l l') k = Some (x, y).
Proof.
  revert l l'. induction k as [|k IH]; intros [|a l] [|b l'] Hx Hy;
    try discriminate; cbn in *.
  - congruence.
  - now apply IH.
Qed.

Lemma nth_error_lt_Some {T : Type} (l : list T) (k : nat) :
  k < length l -> exists x, nth_error l k = Some x.
Proof.
  intros H. destruct (nth_error l k) as [x|] eqn:E.
  - now exists x.
  - apply nth_error_None in E. lia.
Qed.

Lemma firstn_S_nth_error {T : Type} (l : list T) (k : nat) (x : T) :
  nth_error l k = Some x -> firstn (S k) l = firstn k l ++ [x].
Proof.
  revert l. induction k as [|k IH]; intros [|y l] H; try discriminate.
  - now inversion H.
  - cbn [nth_error] in H. cbn [firstn app]. f_equal. now apply IH.
Qed.

Lemma split_at_nth_error {T : Type} (l : list T) (k : nat) (x : T) :
  nth_error l k = Some x -> l = firstn k l ++ x :: skipn (S k) l.
Proof.
  intros H. rewrite <- (skipn_nth_error l k x H). symmetry.
  apply firstn_skipn.
Qed.


Lemma for_in_app {S I : Type} (body : S -> I -> result S) (l l' : list I)
  (s : S) :
  for_in body (l ++ l') s = s' <- for_in body l s ;; for_in body l' s'.
Proof.
  revert s. induction l as [|i l IH]; intros s; cbn.
  - reflexivity.
  - destruct (body s i) as [s'|e]; cbn; [apply IH|reflexivity].
Qed.

(** Two loops whose bodies agree item by item end in the same state. *)
Lemma for_in_Forall2 {S I I' : Type} (body : S -> I -> result S)
  (body' : S -> I' -> result S) (l : list I) (l' : list I') :
  Forall2 (fun i i' => forall s, body s i = body' s i') l l' ->
  forall s, for_in body l s = for_in body' l' s.
Proof.
  induction 1 as [|i i' l l' Hi _ IH]; intros s; cbn.
  - reflexivity.
  - rewrite Hi. destruct (body' s i'); cbn; [apply IH|reflexivity].
Qed.

Lemma Forall2_rev' {T U : Type} (R : T -> U -> Prop) (l : list T)
  (l' : list U) :
  Forall2 R l l' -> Forall2 R (rev l) (rev l').
Proof.
  induction 1; cbn; [constructor|].
  apply Forall2_app; [assumption|]. now repeat constructor.
Qed.

Lemma Forall2_firstn' {T U : Type} (R : T -> U -> Prop) (n : nat)
  (l : list T) (l' : list U) :
  Forall2 R l l' -> Forall2 R (firstn n l) (firstn n l').
Proof.
  intros H. revert n. induction H; intros [|n]; cbn; constructor; auto.
Qed.

Lemma Forall2_skipn' {T U : Type} (R : T -> U -> Prop) (n : nat)
  (l : list T) (l' : list U) :
  Forall2 R l l' -> Forall2 R (skipn n l) (skipn n l').
Proof.
  intros H. revert n. induction H; intros [|n]; cbn; try constructor; auto.
Qed.

Lemma Forall2_combine_seq {T U : Type} (R : T -> U -> Prop) (l : list T)
  (l' : list U) (n : nat) :
  Forall2 R l l' ->
  Forall2 (fun p p' => fst p = fst p' /\ R (snd p) (snd p'))
    (combine (seq n (length l)) l) (combine (seq n (length l')) l').
Proof.
  intros H. revert n. induction H; intros n; cbn; constructor; auto.
Qed.

(** ** [discount_rewards] and [generalized_advantage_estimate] *)

Section RewardsFacts.

Context {A : Type} {N : Num A}.
Local Open Scope num_scope.

Lemma discount_backward_length (gamma : A) (steps : list (A * bool))
  (bootstrap : A) :
  length (snd (discount_backward gamma steps bootstrap)) = length steps.
Proof.
  induction steps as [|[r d] later IH]; cbn.
  - reflexivity.
  - destruct (discount_backward gamma later bootstrap) as [R returns].
    cbn in *. now rewrite IH.
Qed.

Lemma discount_spec_length (gamma : A) (rewards : list A)
  (dones : list bool) (bootstrap : A) :
  length rewards = length dones ->
  length (discount_spec gamma rewards dones bootstrap) = length rewards.
Proof.
  intros H. unfold discount_spec.
  rewrite discount_backward_length, length_combine. lia.
Qed.

Lemma gae_backward_length (gamma tau : A) (steps : list (A * A * A))
  (next_value : A) :
  length (snd (gae_backward gamma tau steps next_value)) = length steps.
Proof.
  induction steps as [|[[r d] v] later IH]; cbn.
  - reflexivity.
  - destruct (gae_backward gamma tau later next_value)
      as [[advantage nv] advantages].
    cbn in *. now rewrite IH.
Qed.

(** The loop of [generalized_advantage_estimate] computes the backward
    recurrence; no law of arithmetic is involved. *)
Lemma gae_loop (gamma tau : A) (rewards dones values : list A)
  (next_value : A) :
  length values = length rewards -> length rewards = length dones ->
  for_in (gae_body gamma tau rewards dones values)
    (reversed_range (length rewards)) ([], num0, next_value) =
  Ok (let '(advantage, nv, advantages) :=
        gae_backward gamma tau (combine (combine rewards dones) values)
          next_value in
      (advantages, advantage, nv)).
Proof.
  intros Hv Hd.
  set (steps := combine (combine rewards dones) values).
  set (inv := fun k =>
    let '(advantage, nv, advantages) :=
      gae_backward gamma tau (skipn k steps) next_value in
    (advantages, advantage, nv)).
  assert (Hlen : length steps = length rewards).
  { unfold steps. rewrite !length_combine. lia. }
  change (Ok _) with (Ok (inv 0)).
  replace ([], num0, next_value) with (inv (length rewards)).
  2:{ unfold inv. rewrite <- Hlen, skipn_all. reflexivity. }
  apply for_in_reversed_range. intros k Hk.
  destruct (nth_error_lt_Some rewards k Hk) as [r Hr].
  destruct (nth_error_lt_Some dones k ltac:(lia)) as [d Hdn].
  destruct (nth_error_lt_Some values k ltac:(lia)) as [v Hvl].
  unfold inv.
  rewrite (skipn_nth_error steps k (r, d, v)).
  2:{ unfold steps. now repeat apply nth_error_combine. }
  cbn [gae_backward].
  destruct (gae_backward gamma tau (skipn (S k) steps) next_value)
    as [[advantage nv] advantages].
  unfold gae_body.
  rewrite (index_Ok _ _ _ Hr), (index_Ok _ _ _ Hdn), (index_Ok _ _ _ Hvl).
  reflexivity.
Qed.

Lemma gae_estimate_spec (gamma tau : A) (rewards dones values : list A)
  (next_value : A) :
  length values = length rewards -> length rewards = length dones ->
  generalized_advantage_estimate gamma tau rewards dones values next_value
    = Ok (gae_spec gamma tau rewards dones values next_value).
Proof.
  intros Hv Hd.
  unfold generalized_advantage_estimate, gae_spec.
  rewrite Hv, Hd, !Nat.eqb_refl. cbn [andb negb].
  rewrite <- Hd, (gae_loop gamma tau _ _ _ next_value Hv Hd). cbn [bind].
  destruct (gae_backward gamma tau _ next_value) as [[advantage nv] l].
  reflexivity.
Qed.

Lemma gae_spec_length (gamma tau : A) (rewards dones values : list A)
  (next_value : A) :
  length values = length rewards -> length rewards = length dones ->
  length (gae_spec gamma tau rewards dones values next_value)
    = length rewards.
Proof.
  intros Hv Hd. unfold gae_spec.
  rewrite gae_backward_length, !length_combine. lia.
Qed.

(** C2. For equal-length [rewards], [dones] and [values],
    [generalized_advantage_estimate] returns the advantages of the backward
    recurrence of the specification ([advantage] from 0, the rolling
    [next_value] from the bootstrap, [td_error] and [advantage] updated as
    written there), and as many of them as there are rewards. *)
Theorem gae_is_backward_recurrence (gamma tau : A)
  (rewards dones values : list A) (next_value : A) :
  length values = length rewards -> length rewards = length dones ->
  generalized_advantage_estimate gamma tau rewards dones values next_value
    = Ok (gae_spec gamma tau rewards dones values next_value)
  /\ length (gae_spec gamma tau rewards dones values next_value)
     = length rewards.
Proof.
  intros Hv Hd. split.
  - now apply gae_estimate_spec.
  - now apply gae_spec_length.
Qed.

(** C7. [generalized_advantage_estimate] needs
    [len(values) == len(rewards) == len(dones)]: on inputs of equal lengths
    it returns advantages and raises nothing; on any other input it raises
    the assertion error of its first statement (the shape mismatch of the
    specification) and returns no result. *)
Theorem gae_length_precondition (gamma tau : A)
  (rewards dones values : list A) (next_value : A) :
  (length values = length rewards /\ length rewards = length dones ->
   exists advantages,
     generalized_advantage_estimate gamma tau rewards dones values
       next_value = Ok advantages)
  /\ (~ (length values = length rewards /\ length rewards = length dones) ->
      generalized_advantage_estimate gamma tau rewards dones values
        next_value = Raise (AssertionError gae_msg)).
Proof.
  split.
  - intros [Hv Hd]. eexists. now apply gae_estimate_spec.
  - intros Hne. unfold generalized_advantage_estimate.
    destruct (length values =? length rewards) eqn:Ev;
      destruct (length rewards =? length dones) eqn:Ed;
      cbn [andb negb]; try reflexivity.
    apply Nat.eqb_eq in Ev, Ed. now destruct Hne.
Qed.

(** Threading the bootstrap: the recurrence over two segments is the
    recurrence over the later one, whose running return is the bootstrap of
    the earlier one. *)
Lemma discount_backward_app (gamma : A) (pre rest : list (A * bool))
  (bootstrap : A) :
  discount_backward gamma (pre ++ rest) bootstrap =
  let '(R, returns) := discount_backward gamma rest bootstrap in
  let '(R', returns') := discount_backward gamma pre R in
  (R', returns' ++ returns).
Proof.
  induction pre as [|[r d] pre IH]; cbn.
  - now destruct (discount_backward gamma rest bootstrap).
  - rewrite IH.
    destruct (discount_backward gamma rest bootstrap) as [R returns].
    destruct (discount_backward gamma pre R) as [R' returns'].
    reflexivity.
Qed.

Lemma discount_backward_head (gamma : A) (steps : list (A * bool))
  (bootstrap : A) :
  steps <> [] ->
  nth_error (snd (discount_backward gamma steps bootstrap)) 0
    = Some (fst (discount_backward gamma steps bootstrap)).
Proof.
  destruct steps as [|[r d] later]; [congruence|]. intros _. cbn.
  now destruct (discount_backward gamma later bootstrap).
Qed.

End RewardsFacts.

Section RewardsRing.

Context {A : Type} {N : Num A} {L : NumLaws A}.
Local Open Scope num_scope.

Add Ring num_ring_structure : num_ring.

Lemma nmul_0_r (x : A) : x * num0 = num0.
Proof. ring. Qed.

(** The loop of [discount_rewards] computes the backward recurrence: the
    code resets [R] by [R *= 0.0], the recurrence by [R = 0]. *)
Lemma discount_loop (gamma : A) (rewards : list A) (dones : list bool)
  (bootstrap : A) :
  length rewards = length dones ->
  for_in (discount_rewards_body gamma rewards dones)
    (reversed_range (length rewards)) (bootstrap, []) =
  Ok (discount_backward gamma (combine rewards dones) bootstrap).
Proof.
  intros Hd.
  set (steps := combine rewards dones).
  set (inv := fun k => discount_backward gamma (skipn k steps) bootstrap).
  assert (Hlen : length steps = length rewards).
  { unfold steps. rewrite length_combine. lia. }
  change (Ok _) with (Ok (inv 0)).
  replace (bootstrap, []) with (inv (length rewards)).
  2:{ unfold inv. rewrite <- Hlen, skipn_all. reflexivity. }
  apply for_in_reversed_range. intros k Hk.
  destruct (nth_error_lt_Some rewards k Hk) as [r Hr].
  destruct (nth_error_lt_Some dones k ltac:(lia)) as [d Hdn].
  unfold inv.
  rewrite (skipn_nth_error steps k (r, d)).
  2:{ unfold steps. now apply nth_error_combine. }
  cbn [discount_backward].
  destruct (discount_backward gamma (skipn (S k) steps) bootstrap)
    as [R returns].
  unfold discount_rewards_body.
  rewrite (index_Ok _ _ _ Hr), (index_Ok _ _ _ Hdn). cbn [bind].
  destruct d; [rewrite nmul_0_r|]; reflexivity.
Qed.

Lemma discount_rewards_spec (gamma : A) (rewards : list A)
  (dones : list bool) (bootstrap : A) :
  length rewards = length dones ->
  discount_rewards gamma rewards dones bootstrap
    = Ok (discount_spec gamma rewards dones bootstrap).
Proof.
  intros Hd. unfold discount_rewards, discount_spec.
  now rewrite (discount_loop gamma _ _ bootstrap Hd).
Qed.

(** *** Sums *)

Lemma nsum_ext (f g : nat -> A) (n : nat) :
  (forall i, i < n -> f i = g i) -> nsum f n = nsum g n.
Proof.
  induction n as [|n IH]; intros H; cbn.
  - reflexivity.
  - rewrite IH by (intros; apply H; lia). now rewrite H by lia.
Qed.

Lemma nsum_shift (f : nat -> A) (n : nat) :
  nsum f (S n) = f 0 + nsum (fun i => f (S i)) n.
Proof.
  induction n as [|n IH].
  - cbn. ring.
  - cbn [nsum] in *. rewrite IH. ring.
Qed.

Lemma nsum_scale (c : A) (f : nat -> A) (n : nat) :
  c * nsum f n = nsum (fun i => c * f i) n.
Proof.
  induction n as [|n IH]; cbn.
  - ring.
  - rewrite <- IH. ring.
Qed.

Lemma discounted_sum_cons (gamma r : A) (rewards : list A) :
  discounted_sum gamma (r :: rewards)
    = r + gamma * discounted_sum gamma rewards.
Proof.
  unfold discounted_sum. cbn [length]. rewrite nsum_shift, nsum_scale.
  cbn [npow nth]. f_equal; [ring|].
  apply nsum_ext. intros i _. ring.
Qed.





End RewardsRing.

(** ** The recurrences as computed, in any arithmetic *)

Section RewardsComputedFacts.

Context {A : Type} {N : Num A}.
Local Open Scope num_scope.

Lemma discount_computed_length (gamma : A) (steps : list (A * bool))
  (bootstrap : A) :
  length (snd (discount_computed gamma steps bootstrap)) = length steps.
Proof.
  induction steps as [|[r d] later IH]; cbn.
  - reflexivity.
  - destruct (discount_computed gamma later bootstrap) as [R returns].
    cbn in *. now rewrite IH.
Qed.

Lemma discount_computed_fst_hd (gamma : A) (steps : list (A * bool))
  (bootstrap : A) :
  fst (discount_computed gamma steps bootstrap)
    = hd bootstrap (snd (discount_computed gamma steps bootstrap)).
Proof.
  destruct steps as [|[r d] later]; cbn; [reflexivity|].
  now destruct (discount_computed gamma later bootstrap).
Qed.

(** The loop of [discount_rewards] computes [discount_computed]: no law of
    arithmetic is involved. *)
Lemma discount_loop_computed (gamma : A) (rewards : list A)
  (dones : list bool) (bootstrap : A) :
  length rewards = length dones ->
  for_in (discount_rewards_body gamma rewards dones)
    (reversed_range (length rewards)) (bootstrap, []) =
  Ok (discount_computed gamma (combine rewards dones) bootstrap).
Proof.
  intros Hd.
  set (steps := combine rewards dones).
  set (inv := fun k => discount_computed gamma (skipn k steps) bootstrap).
  assert (Hlen : length steps = length rewards).
  { unfold steps. rewrite length_combine. lia. }
  change (Ok _) with (Ok (inv 0)).
  replace (bootstrap, []) with (inv (length rewards)).
  2:{ unfold inv. rewrite <- Hlen, skipn_all. reflexivity. }
  apply for_in_reversed_range. intros k Hk.
  destruct (nth_error_lt_Some rewards k Hk) as [r Hr].
  destruct (nth_error_lt_Some dones k ltac:(lia)) as [d Hdn].
  unfold inv.
  rewrite (skipn_nth_error steps k (r, d)).
  2:{ unfold steps. now apply nth_error_combine. }
  cbn [discount_computed].
  destruct (discount_computed gamma (skipn (S k) steps) bootstrap)
    as [R returns].
  unfold discount_rewards_body.
  rewrite (index_Ok _ _ _ Hr), (index_Ok _ _ _ Hdn). reflexivity.
Qed.

Lemma discount_rewards_computed (gamma : A) (rewards : list A)
  (dones : list bool) (bootstrap : A) :
  length rewards = length dones ->
  discount_rewards gamma rewards dones bootstrap
    = Ok (discount_returns gamma rewards dones bootstrap).
Proof.
  intros Hd. unfold discount_rewards, discount_returns.
  now rewrite (discount_loop_computed gamma _ _ bootstrap Hd).
Qed.

(** Where the multiplication by [0.0] gives zero on the bootstrap and on
    every return, the computed recurrence is that of the specification. *)
Lemma discount_computed_reset (gamma : A) (steps : list (A * bool))
  (bootstrap : A) :
  Forall (fun R => R * num0 = num0)
    (bootstrap :: snd (discount_computed gamma steps bootstrap)) ->
  discount_computed gamma steps bootstrap
    = discount_backward gamma steps bootstrap.
Proof.
  induction steps as [|[r d] later IH];
    cbn [discount_computed discount_backward]; intros H.
  - reflexivity.
  - pose proof (discount_computed_fst_hd gamma later bootstrap) as Hhd.
    destruct (discount_computed gamma later bootstrap) as [R returns].
    cbn [fst snd] in *.
    pose proof (Forall_inv H) as Hb.
    pose proof (Forall_inv_tail (Forall_inv_tail H)) as Hl.
    rewrite <- IH by (now constructor).
    assert (HR : R * num0 = num0).
    { rewrite Hhd. destruct returns as [|R' returns']; cbn [hd];
        [exact Hb|exact (Forall_inv Hl)]. }
    destruct d; [now rewrite HR|reflexivity].
Qed.

(** C1. For equal-length [rewards] and [dones], [discount_rewards] returns
    the returns of the backward recurrence in which a terminal step
    multiplies the running return by [0.0] before folding the reward in, and
    as many of them as there are rewards.  Where that product is zero for
    the bootstrap and every return, and so in exact arithmetic, this is the
    recurrence of the specification, which resets the running return to
    zero. *)
Theorem discount_is_computed_recurrence (gamma : A) (rewards : list A)
  (dones : list bool) (bootstrap : A) :
  length rewards = length dones ->
  discount_rewards gamma rewards dones bootstrap
    = Ok (discount_returns gamma rewards dones bootstrap)
  /\ length (discount_returns gamma rewards dones bootstrap)
     = length rewards
  /\ (Forall (fun R => R * num0 = num0)
        (bootstrap :: discount_returns gamma rewards dones bootstrap) ->
      discount_returns gamma rewards dones bootstrap
        = discount_spec gamma rewards dones bootstrap)
  /\ (NumLaws A ->
      discount_returns gamma rewards dones bootstrap
        = discount_spec gamma rewards dones bootstrap).
Proof.
  intros Hd.
  assert (Hreset :
    Forall (fun R => R * num0 = num0)
      (bootstrap :: discount_returns gamma rewards dones bootstrap) ->
    discount_returns gamma rewards dones bootstrap
      = discount_spec gamma rewards dones bootstrap).
  { intros H. unfold discount_returns, discount_spec.
    now rewrite discount_computed_reset. }
  split; [now apply discount_rewards_computed|].
  split.
  { unfold discount_returns.
    rewrite discount_computed_length, length_combine. lia. }
  split; [exact Hreset|].
  intros L. apply Hreset. apply Forall_forall. intros R _.
  apply nmul_0_r.
Qed.








End RewardsComputedFacts.

(** ** The claims in binary64 *)

Lemma discount_is_computed_recurrence_witness :
  discount_rewards (A := float) 0.5%float [8; 8; 8; 8; 8]%float
    [false; false; false; false; true] 0%float
  = Ok (discount_spec (A := float) 0.5%float [8; 8; 8; 8; 8]%float
          [false; false; false; false; true] 0%float).
Proof.
  destruct (discount_is_computed_recurrence (A := float) 0.5%float
              [8; 8; 8; 8; 8]%float [false; false; false; false; true]
              0%float eq_refl) as [H1 [_ [H3 _]]].
  rewrite H1. apply f_equal. apply H3. vm_compute.
  repeat (constructor; try reflexivity).
Defined.

(** With an infinite bootstrap the reset [R *= 0.0] gives a NaN, where the
    recurrence of the specification gives the reward. *)
Lemma discount_reset_counterexample :
  ~ (discount_rewards (A := float) 0.5%float [1]%float [true] infinity
     = Ok (discount_spec (A := float) 0.5%float [1]%float [true] infinity)
     /\ length (discount_spec (A := float) 0.5%float [1]%float [true]
                  infinity) = length [1]%float).
Proof.
  intros [H _].
  apply (f_equal (fun c => match c with
                           | Ok (x :: _) => is_nan x
                           | _ => false
                           end)) in H.
  vm_compute in H. discriminate H.
Qed.









(** ** The concrete scenarios of the tests *)

(** C5. With [gamma = 0.5], five rewards of 8 of which only the last is
    terminal and bootstrap 0, [discount_rewards] returns exactly
    [[15.5, 15.0, 14.0, 12.0, 8.0]]: in binary64 floating point, the
    arithmetic of Python, and in exact rational arithmetic. *)
Theorem discount_concrete_scenario :
  discount_rewards (A := float) 0.5%float [8; 8; 8; 8; 8]%float
    [false; false; false; false; true] 0%float
    = Ok [15.5; 15; 14; 12; 8]%float
  /\ discount_rewards (A := Qc) (Q2Qc (1 # 2))
       (map Q2Qc [8; 8; 8; 8; 8]%Q)
       [false; false; false; false; true] (Q2Qc 0)
     = Ok (map Q2Qc [31 # 2; 15; 14; 12; 8]%Q).
Proof.
  split.
  - vm_compute. reflexivity.
  - vm_compute. reflexivity.
Qed.


(** ** [Logger._episodes_length_rewards] and [Logger._episodes_stats] *)

Section LoggerFacts.

Context {A : Type} {N : Num A}.
Local Open Scope num_scope.

(** The loop only appends to the episodes found so far. *)
Lemma elr_loop_with_earlier (ers : list A) (els : list nat)
  (steps : list (step_entry A)) (st : elr_state A) :
  for_in elr_body steps (with_earlier ers els st) =
  st' <- for_in elr_body steps st ;; Ok (with_earlier ers els st').
Proof.
  revert st. induction steps as [|e steps IH]; intros st; cbn [for_in].
  - reflexivity.
  - unfold elr_body at 1 3.
    destruct (first_element e) as [[r [|]]|err]; cbn [bind negb].
    + rewrite <- IH. unfold with_earlier. cbn. now rewrite <- !app_assoc.
    + rewrite <- IH. reflexivity.
    + reflexivity.
Qed.

(** A run of non-terminal steps adds each reward to [accum] and one to
    [length] for each step, and closes no episode. *)
Lemma elr_loop_run (run : list (step_entry A)) (rs : list A)
  (st : elr_state A) :
  Forall2 (fun e r => first_element e = Ok (r, false)) run rs ->
  for_in elr_body run st =
  Ok {| episode_rewards := episode_rewards st;
        episode_lengths := episode_lengths st;
        accum := fold_left nadd rs (accum st);
        length_ := (length_ st + length run)%nat |}.
Proof.
  intros H. revert st.
  induction H as [|e r run rs He _ IH]; intros st; cbn [for_in].
  - destruct st. cbn. now rewrite Nat.add_0_r.
  - unfold elr_body at 1. rewrite He. cbn [bind negb].
    rewrite IH. cbn. do 2 f_equal. lia.
Qed.

Lemma elr_body_terminal (e : step_entry A) (r : A) (st : elr_state A) :
  first_element e = Ok (r, true) ->
  elr_body st e =
  Ok (with_earlier (episode_rewards st ++ [accum st])
        (episode_lengths st ++ [length_ st])
        {| episode_rewards := []; episode_lengths := [];
           accum := num0; length_ := 0 |}).
Proof.
  intros He. unfold elr_body, with_earlier. rewrite He. cbn.
  now rewrite !app_nil_r.
Qed.

(** An episode: a run of non-terminal steps closed by a terminal step. *)
Lemma elr_episode (run : list (step_entry A)) (rs : list A) (e : step_entry A)
  (r_e : A) (rest : list (step_entry A)) (ers : list A) (els : list nat) :
  Forall2 (fun e r => first_element e = Ok (r, false)) run rs ->
  first_element e = Ok (r_e, true) ->
  _episodes_length_rewards rest = Ok (ers, els) ->
  _episodes_length_rewards (run ++ e :: rest)
    = Ok (accumulated rs :: ers, length run :: els).
Proof.
  intros Hrun He Hrest. unfold _episodes_length_rewards in *.
  rewrite for_in_app, (elr_loop_run run rs _ Hrun). cbn [bind for_in].
  rewrite (elr_body_terminal e r_e _ He). cbn [bind].
  rewrite elr_loop_with_earlier.
  destruct (for_in elr_body rest _) as [st|err]; [|discriminate Hrest].
  cbn [bind with_earlier length_ accum episode_rewards episode_lengths] in *.
  destruct (0 <? length_ st); injection Hrest as <- <-; reflexivity.
Qed.

Lemma elr_trailing_run (run : list (step_entry A)) (rs : list A) :
  run <> [] ->
  Forall2 (fun e r => first_element e = Ok (r, false)) run rs ->
  _episodes_length_rewards run = Ok ([accumulated rs], [length run]).
Proof.
  intros Hne Hrun. unfold _episodes_length_rewards.
  rewrite (elr_loop_run run rs _ Hrun). cbn.
  destruct run; [congruence|]. reflexivity.
Qed.

Lemma elr_all_terminal (steps : list (step_entry A)) :
  Forall (fun e => exists r, first_element e = Ok (r, true)) steps ->
  _episodes_length_rewards steps
    = Ok (repeat num0 (length steps), repeat 0 (length steps)).
Proof.
  induction 1 as [|e steps [r He] _ IH].
  - reflexivity.
  - apply (elr_episode [] [] e r steps); auto.
Qed.

(** C9. In [_episodes_length_rewards] an episode closed by a terminal step
    is reported with the rewards of its non-terminal steps only, added up
    from 0.0, and with their number as its length: the terminal step adds
    neither its reward nor a unit of length.  A trailing run of non-terminal
    steps is reported as one more episode.  So [n] steps that are all
    terminal give [n] episodes of reward 0.0 and length 0. *)
Theorem episodes_terminal_step_not_counted :
  (forall (run : list (step_entry A)) (rs : list A) (e : step_entry A) (r_e : A)
          (rest : list (step_entry A)) (ers : list A) (els : list nat),
      Forall2 (fun e r => first_element e = Ok (r, false)) run rs ->
      first_element e = Ok (r_e, true) ->
      _episodes_length_rewards rest = Ok (ers, els) ->
      _episodes_length_rewards (run ++ e :: rest)
        = Ok (accumulated rs :: ers, length run :: els))
  /\ (forall (run : list (step_entry A)) (rs : list A),
        run <> [] ->
        Forall2 (fun e r => first_element e = Ok (r, false)) run rs ->
        _episodes_length_rewards run = Ok ([accumulated rs], [length run]))
  /\ (forall steps : list (step_entry A),
        Forall (fun e => exists r, first_element e = Ok (r, true)) steps ->
        _episodes_length_rewards steps
          = Ok (repeat num0 (length steps), repeat 0 (length steps))).
Proof.
  split; [|split].
  - intros. eapply elr_episode; eassumption.
  - intros. now apply elr_trailing_run.
  - intros. now apply elr_all_terminal.
Qed.

(** *** Only the first element of a batch is read *)

Lemma agree_first_element (e e' : step_entry A) :
  agree_first e e' -> first_element e = first_element e'.
Proof. now destruct 1. Qed.

Lemma agree_done_flag (e e' : step_entry A) :
  agree_first e e' -> done_flag e = done_flag e'.
Proof. now destruct 1. Qed.

Lemma elr_agree (steps steps' : list (step_entry A)) :
  Forall2 agree_first steps steps' ->
  _episodes_length_rewards steps = _episodes_length_rewards steps'.
Proof.
  intros H. unfold _episodes_length_rewards.
  rewrite (for_in_Forall2 elr_body elr_body steps steps');
    [reflexivity|].
  eapply Forall2_impl; [|exact H].
  intros e e' He st. unfold elr_body. now rewrite (agree_first_element e e' He).
Qed.

Lemma stats_scan_agree (ep_interval : Z) (steps steps' : list (step_entry A)) :
  Forall2 agree_first steps steps' ->
  for_in (stats_body ep_interval) (rev (enumerate steps)) (0, 0, 0%Z)
    = for_in (stats_body ep_interval) (rev (enumerate steps')) (0, 0, 0%Z).
Proof.
  intros H. apply for_in_Forall2. apply Forall2_rev'.
  eapply Forall2_impl; [|apply Forall2_combine_seq; exact H].
  intros [i e] [i' e'] [Hi He] [[start end_] count]. cbn in Hi, He. subst i'.
  unfold stats_body. now rewrite (agree_done_flag e e' He).
Qed.

(** C10. The episode statistics read only the first element of each reward
    and done entry: on two histories whose steps agree on these first
    elements, whatever the other elements of the batches,
    [_episodes_length_rewards] and [_episodes_stats] return the same. *)
Theorem episodes_stats_first_element_only
  (steps steps' : list (step_entry A)) :
  Forall2 agree_first steps steps' ->
  _episodes_length_rewards steps = _episodes_length_rewards steps'
  /\ forall ep_interval : Z,
      _episodes_stats steps ep_interval = _episodes_stats steps' ep_interval.
Proof.
  intros H. split; [now apply elr_agree|].
  intros ep_interval. unfold _episodes_stats.
  rewrite (stats_scan_agree ep_interval steps steps' H).
  destruct (for_in (stats_body ep_interval) _ _) as [[[start end_] count]|err];
    cbn [bind]; [|reflexivity].
  rewrite (elr_agree (slice steps start end_) (slice steps' start end_));
  [reflexivity|].
  unfold slice. now apply Forall2_firstn', Forall2_skipn'.
Qed.

End LoggerFacts.

(** Binary64 floats are no ring: [R *= 0.0] turns a finite [R] into a zero,
    and an infinite one into a NaN.  The laws of [NumLaws] are those of exact
    arithmetic. *)
Remark float_times_zero :
  nmul (A := float) 15.5%float num0 = 0%float
  /\ nmul (A := float) infinity num0 = nan.
Proof. split; reflexivity. Qed.

(** ** Instances of the theorems on concrete inputs *)

Lemma gae_is_backward_recurrence_witness :
  generalized_advantage_estimate (A := Z) 2%Z 3%Z [8; 8; 8]%Z [0; 1; 0]%Z
    [1; 2; 3]%Z 5%Z
    = Ok [47; 6; 15]%Z
  /\ length [47; 6; 15]%Z = 3.
Proof.
  exact (gae_is_backward_recurrence (A := Z) 2%Z 3%Z [8; 8; 8]%Z [0; 1; 0]%Z
           [1; 2; 3]%Z 5%Z eq_refl eq_refl).
Defined.

Lemma episodes_terminal_step_not_counted_witness :
  _episodes_length_rewards (A := Z)
    ([Plain 1%Z false; Batched [2; 9]%Z [false; true]]
       ++ Plain 5%Z true :: [Plain 7%Z false])
    = Ok ([3; 7]%Z, [2; 1]).
Proof.
  refine (proj1 (episodes_terminal_step_not_counted (A := Z))
            [Plain 1%Z false; Batched [2; 9]%Z [false; true]] [1; 2]%Z
            (Plain 5%Z true) 5%Z [Plain 7%Z false] [7%Z] [1] _ _ _).
  - repeat constructor.
  - reflexivity.
  - reflexivity.
Defined.

Lemma episodes_stats_first_element_only_witness :
  _episodes_length_rewards (A := Z)
    [Batched [1; 2]%Z [false; true]; Batched [3; 4]%Z [true; false];
     Plain 5%Z false]
  = _episodes_length_rewards
      [Batched [1; 9]%Z [false; false]; Batched [3; 0; 6]%Z [true; true; true];
       Plain 5%Z false]
  /\ forall ep_interval : Z,
      _episodes_stats (A := Z)
        [Batched [1; 2]%Z [false; true]; Batched [3; 4]%Z [true; false];
         Plain 5%Z false] ep_interval
      = _episodes_stats
          [Batched [1; 9]%Z [false; false];
           Batched [3; 0; 6]%Z [true; true; true]; Plain 5%Z false]
          ep_interval.
Proof.
  apply (episodes_stats_first_element_only (A := Z)).
  repeat constructor.
Defined.

(** * Further properties *)

(** ** [discount_rewards]: bounds *)

Lemma combine_app_same_length {T U : Type} (l1 l2 : list T) (m1 m2 : list U) :
  length l1 = length m1 ->
  combine (l1 ++ l2) (m1 ++ m2) = combine l1 m1 ++ combine l2 m2.
Proof.
  revert m1. induction l1 as [|a l1 IH]; intros [|b m1] H; try discriminate.
  - reflexivity.
  - cbn. f_equal. apply IH. now inversion H.
Qed.

Lemma for_in_Raise {S I : Type} (body : S -> I -> result S) (i : I)
  (its : list I) (s : S) (e : exn) :
  body s i = Raise e -> for_in body (i :: its) s = Raise e.
Proof. intros H. cbn. now rewrite H. Qed.

Section RewardsBounds.

Context {A : Type} {N : Num A}.
Local Open Scope num_scope.

(** X1. With fewer done flags than rewards, [discount_rewards] raises
    [IndexError]: the first timestep it visits is the last reward, for which
    there is no done flag. *)
Theorem discount_rewards_short_dones (gamma : A) (rewards : list A)
  (dones : list bool) (bootstrap : A) :
  length dones < length rewards ->
  discount_rewards gamma rewards dones bootstrap = Raise IndexError.
Proof.
  intros H. unfold discount_rewards.
  destruct (length rewards) as [|n] eqn:E; [lia|].
  rewrite reversed_range_S.
  rewrite (for_in_Raise _ n _ _ IndexError); [reflexivity|].
  unfold discount_rewards_body, index.
  assert (Hn : nth_error dones n = None) by (apply nth_error_None; lia).
  now rewrite Hn.
Qed.

Lemma discount_backward_fst_hd (gamma : A) (steps : list (A * bool))
  (bootstrap : A) :
  fst (discount_backward gamma steps bootstrap)
    = hd bootstrap (snd (discount_backward gamma steps bootstrap)).
Proof.
  destruct steps as [|[r d] later]; cbn; [reflexivity|].
  now destruct (discount_backward gamma later bootstrap).
Qed.

End RewardsBounds.

(** Two loops whose bodies agree on every item end in the same state. *)
Lemma for_in_ext_Forall {S I : Type} (body body' : S -> I -> result S)
  (l : list I) :
  Forall (fun i => forall s, body s i = body' s i) l ->
  forall s, for_in body l s = for_in body' l s.
Proof.
  induction 1 as [|i l Hi _ IH]; intros s; cbn.
  - reflexivity.
  - rewrite Hi. destruct (body' s i); cbn; [apply IH|reflexivity].
Qed.

Lemma reversed_range_lt (n : nat) : Forall (fun i => i < n) (reversed_range n).
Proof.
  apply Forall_forall. intros i Hi. unfold reversed_range in Hi.
  apply in_rev, in_seq in Hi. lia.
Qed.

Lemma index_firstn {T : Type} (l : list T) (n i : nat) :
  i < n -> index (firstn n l) i = index l i.
Proof.
  intros H. unfold index. rewrite nth_error_firstn.
  destruct (Nat.ltb_spec i n); [reflexivity|lia].
Qed.

Section RewardsMoreRing.

Context {A : Type} {N : Num A} {L : NumLaws A}.
Local Open Scope num_scope.

Add Ring num_ring_structure' : num_ring.

Lemma discount_rewards_firstn_dones (gamma : A) (rewards : list A)
  (dones : list bool) (bootstrap : A) :
  discount_rewards gamma rewards (firstn (length rewards) dones) bootstrap
    = discount_rewards gamma rewards dones bootstrap.
Proof.
  unfold discount_rewards. f_equal.
  apply for_in_ext_Forall.
  eapply Forall_impl; [|apply reversed_range_lt].
  intros t Ht [R discounted]. unfold discount_rewards_body.
  now rewrite index_firstn.
Qed.

(** X2. With at least as many done flags as rewards, [discount_rewards]
    returns as many returns as rewards: the done flags beyond the last reward
    are never read. *)
Theorem discount_rewards_extra_dones (gamma : A) (rewards : list A)
  (dones extra : list bool) (bootstrap : A) :
  length rewards = length dones ->
  discount_rewards gamma rewards (dones ++ extra) bootstrap
    = discount_rewards gamma rewards dones bootstrap
  /\ exists returns,
      discount_rewards gamma rewards (dones ++ extra) bootstrap = Ok returns
      /\ length returns = length rewards.
Proof.
  intros H.
  assert (E : discount_rewards gamma rewards (dones ++ extra) bootstrap
              = discount_rewards gamma rewards dones bootstrap).
  { rewrite <- discount_rewards_firstn_dones.
    rewrite H, firstn_app, Nat.sub_diag, firstn_all. cbn.
    now rewrite app_nil_r. }
  split; [exact E|].
  rewrite E. eexists. split; [now apply discount_rewards_spec|].
  now apply discount_spec_length.
Qed.

(** X3. Threading the bootstrap through a concatenation: the returns of
    [rewards1 + rewards2] are those of the second segment, preceded by those
    of the first segment computed with the first return of the second segment
    as its bootstrap (the bootstrap itself when the second segment is
    empty). *)
Theorem discount_rewards_concat (gamma : A) (rewards1 rewards2 : list A)
  (dones1 dones2 : list bool) (bootstrap : A) :
  length rewards1 = length dones1 ->
  length rewards2 = length dones2 ->
  exists later earlier,
    discount_rewards gamma rewards2 dones2 bootstrap = Ok later
    /\ discount_rewards gamma rewards1 dones1 (hd bootstrap later)
         = Ok earlier
    /\ discount_rewards gamma (rewards1 ++ rewards2) (dones1 ++ dones2)
         bootstrap = Ok (earlier ++ later).
Proof.
  intros H1 H2.
  exists (discount_spec gamma rewards2 dones2 bootstrap).
  eexists.
  split; [now apply discount_rewards_spec|].
  split; [now apply discount_rewards_spec|].
  rewrite discount_rewards_spec by (rewrite !length_app; lia).
  f_equal. unfold discount_spec.
  rewrite combine_app_same_length by exact H1.
  rewrite discount_backward_app.
  rewrite <- discount_backward_fst_hd.
  destruct (discount_backward gamma (combine rewards2 dones2) bootstrap)
    as [R returns].
  cbn [fst snd].
  now destruct (discount_backward gamma (combine rewards1 dones1) R).
Qed.

Lemma discount_backward_scale (c gamma : A) (steps : list (A * bool))
  (bootstrap : A) :
  discount_backward gamma (map (fun s => (c * fst s, snd s)) steps)
    (c * bootstrap)
  = (c * fst (discount_backward gamma steps bootstrap),
     map (nmul c) (snd (discount_backward gamma steps bootstrap))).
Proof.
  induction steps as [|[r d] later IH]; cbn [map discount_backward fst snd].
  - reflexivity.
  - rewrite IH.
    destruct (discount_backward gamma later bootstrap) as [R returns].
    cbn [fst snd map].
    assert (E : c * r + gamma * (if d then num0 else c * R)
                = c * (r + gamma * (if d then num0 else R))).
    { destruct d; ring. }
    now rewrite E.
Qed.

(** X4. The returns are homogeneous in the rewards: multiplying every reward
    and the bootstrap by [c] multiplies every return by [c]. *)
Theorem discount_rewards_scale (c gamma : A) (rewards : list A)
  (dones : list bool) (bootstrap : A) :
  length rewards = length dones ->
  exists returns,
    discount_rewards gamma rewards dones bootstrap = Ok returns
    /\ discount_rewards gamma (map (nmul c) rewards) dones (c * bootstrap)
       = Ok (map (nmul c) returns).
Proof.
  intros H. eexists. split; [now apply discount_rewards_spec|].
  rewrite discount_rewards_spec by (now rewrite length_map).
  f_equal. unfold discount_spec.
  replace (combine (map (nmul c) rewards) dones)
    with (map (fun s => (c * fst s, snd s)) (combine rewards dones)).
  - now rewrite discount_backward_scale.
  - clear H. revert dones.
    induction rewards as [|r rewards IH]; intros [|d dones]; cbn;
      try reflexivity.
    now rewrite IH.
Qed.

Lemma discount_backward_gamma_zero (steps : list (A * bool)) (bootstrap : A) :
  snd (discount_backward num0 steps bootstrap) = map fst steps.
Proof.
  induction steps as [|[r d] later IH]; cbn [discount_backward map fst snd].
  - reflexivity.
  - destruct (discount_backward num0 later bootstrap) as [R returns].
    cbn [snd] in *. rewrite IH. f_equal. ring.
Qed.

Lemma map_fst_combine_same_length {T U : Type} (l : list T) (l' : list U) :
  length l = length l' -> map fst (combine l l') = l.
Proof.
  revert l'. induction l as [|a l IH]; intros [|b l'] H; try discriminate.
  - reflexivity.
  - cbn. f_equal. apply IH. now inversion H.
Qed.

(** X5. With [gamma = 0] every return is the reward of its own timestep,
    whatever the done flags and the bootstrap. *)
Theorem discount_rewards_gamma_zero (rewards : list A) (dones : list bool)
  (bootstrap : A) :
  length rewards = length dones ->
  discount_rewards num0 rewards dones bootstrap = Ok rewards.
Proof.
  intros H. rewrite discount_rewards_spec by exact H. f_equal.
  unfold discount_spec. rewrite discount_backward_gamma_zero.
  now apply map_fst_combine_same_length.
Qed.

(** X6. When every timestep is terminal, every return is the reward of its
    own timestep, whatever [gamma] and the bootstrap. *)
Theorem discount_rewards_all_terminal (gamma : A) (rewards : list A)
  (bootstrap : A) :
  discount_rewards gamma rewards (repeat true (length rewards)) bootstrap
    = Ok rewards.
Proof.
  rewrite discount_rewards_spec by (now rewrite repeat_length). f_equal.
  unfold discount_spec.
  induction rewards as [|r rewards IH];
    cbn [length repeat combine discount_backward snd].
  - reflexivity.
  - destruct (discount_backward gamma _ bootstrap) as [R returns].
    cbn [snd] in *. rewrite IH. f_equal. ring.
Qed.

Lemma discount_backward_no_terminal (gamma : A) (rewards : list A)
  (bootstrap : A) :
  fst (discount_backward gamma
         (combine rewards (repeat false (length rewards))) bootstrap)
    = discounted_sum gamma rewards + npow gamma (length rewards) * bootstrap.
Proof.
  induction rewards as [|r rewards IH];
    cbn [length repeat combine discount_backward fst npow].
  - unfold discounted_sum. cbn. ring.
  - rewrite discounted_sum_cons.
    destruct (discount_backward gamma _ bootstrap) as [R returns].
    cbn [fst] in *. rewrite IH. ring.
Qed.

(** X7. Without a terminal step the bootstrap reaches the first return with
    weight [gamma^T]: for [T >= 1] rewards and no done flag set,
    [returns[0]] is [sum over i < T of gamma^i * rewards[i]
    + gamma^T * bootstrap]. *)
Theorem discount_rewards_bootstrap_weight (gamma : A) (rewards : list A)
  (bootstrap : A) :
  rewards <> [] ->
  exists returns,
    discount_rewards gamma rewards (repeat false (length rewards)) bootstrap
      = Ok returns
    /\ index returns 0
       = Ok (discounted_sum gamma rewards
             + npow gamma (length rewards) * bootstrap).
Proof.
  intros Hne. eexists.
  split; [apply discount_rewards_spec; now rewrite repeat_length|].
  apply index_Ok. unfold discount_spec.
  rewrite discount_backward_head.
  - now rewrite discount_backward_no_terminal.
  - destruct rewards; [congruence|discriminate].
Qed.

(** *** [generalized_advantage_estimate] *)

(** What the recurrence hands to earlier timesteps is the pair of the carried
    advantage and of the rolling value: two continuations that agree on it
    give the same advantages before them. *)
Lemma gae_backward_app_same (gamma tau : A) (pre X X' : list (A * A * A))
  (nv nv' : A) :
  fst (gae_backward gamma tau X nv) = fst (gae_backward gamma tau X' nv') ->
  exists P,
    length P = length pre
    /\ snd (gae_backward gamma tau (pre ++ X) nv)
       = P ++ snd (gae_backward gamma tau X nv)
    /\ snd (gae_backward gamma tau (pre ++ X') nv')
       = P ++ snd (gae_backward gamma tau X' nv')
    /\ fst (gae_backward gamma tau (pre ++ X) nv)
       = fst (gae_backward gamma tau (pre ++ X') nv').
Proof.
  intros H. induction pre as [|[[r d] v] pre IH].
  - exists []. cbn. auto.
  - destruct IH as [P [HP [E1 [E2 E3]]]].
    cbn [app gae_backward].
    destruct (gae_backward gamma tau (pre ++ X) nv) as [[a n] l].
    destruct (gae_backward gamma tau (pre ++ X') nv') as [[a' n'] l'].
    cbn [fst snd] in *. injection E3 as -> ->. subst l l'.
    eexists (_ :: P). cbn [length app]. repeat split. now rewrite HP.
Qed.

(** X8. Episode isolation for the advantages.  When [dones[k]] is 1, the
    first [k+1] advantages on the whole window, with any bootstrap, are the
    advantages of the window cut after [k], with any bootstrap: neither the
    later timesteps nor [next_value] reach across a terminal step. *)
Theorem gae_episode_isolation (gamma tau : A) (rewards dones values : list A)
  (k : nat) (next_value next_value' : A) :
  length values = length rewards -> length rewards = length dones ->
  nth_error dones k = Some num1 ->
  exists full cut,
    generalized_advantage_estimate gamma tau rewards dones values next_value
      = Ok full
    /\ generalized_advantage_estimate gamma tau (firstn (S k) rewards)
         (firstn (S k) dones) (firstn (S k) values) next_value' = Ok cut
    /\ firstn (S k) full = cut.
Proof.
  intros Hv Hd Hk.
  assert (Hlt : k < length rewards).
  { rewrite Hd. apply nth_error_Some. congruence. }
  destruct (nth_error_lt_Some rewards k Hlt) as [r Hr].
  destruct (nth_error_lt_Some values k ltac:(lia)) as [v Hvl].
  pose proof (nth_error_combine _ values k (r, num1) v
                (nth_error_combine rewards dones k r num1 Hr Hk) Hvl) as Hs.
  eexists. eexists.
  split; [now apply gae_estimate_spec|].
  split; [apply gae_estimate_spec; rewrite !length_firstn; lia|].
  unfold gae_spec. rewrite <- !combine_firstn.
  set (steps := combine (combine rewards dones) values) in *.
  rewrite (firstn_S_nth_error steps k _ Hs).
  rewrite (split_at_nth_error steps k _ Hs) at 1.
  destruct (gae_backward_app_same gamma tau (firstn k steps)
              ((r, num1, v) :: skipn (S k) steps) [(r, num1, v)]
              next_value next_value') as [P [HP [E1 [E2 _]]]].
  { cbn [gae_backward].
    destruct (gae_backward gamma tau (skipn (S k) steps) next_value)
      as [[a n] l].
    cbn [fst]. f_equal. ring. }
  rewrite E1, E2. cbn [gae_backward].
  destruct (gae_backward gamma tau (skipn (S k) steps) next_value)
    as [[a n] l].
  cbn [snd].
  assert (HPk : length P = k).
  { rewrite HP, length_firstn. unfold steps. rewrite !length_combine. lia. }
  rewrite firstn_app, HPk.
  replace (S k - k)%nat with 1 by lia.
  rewrite firstn_all2 by lia. cbn [firstn]. do 2 f_equal. ring.
Qed.

Lemma gae_backward_tau_one (gamma : A) (rewards : list A) (dones : list bool)
  (values : list A) (next_value : A) :
  length rewards = length dones -> length rewards = length values ->
  fst (fst (gae_backward gamma num1
              (combine (combine rewards (map of_bool dones)) values)
              next_value))
    = fst (discount_backward gamma (combine rewards dones) next_value)
      - hd next_value values
  /\ snd (fst (gae_backward gamma num1
                 (combine (combine rewards (map of_bool dones)) values)
                 next_value))
     = hd next_value values
  /\ snd (gae_backward gamma num1
            (combine (combine rewards (map of_bool dones)) values)
            next_value)
     = map (fun p => fst p - snd p)
         (combine
            (snd (discount_backward gamma (combine rewards dones)
                    next_value))
            values).
Proof.
  revert dones values.
  induction rewards as [|r rewards IH]; intros [|d dones] [|v values] Hd Hv;
    try discriminate.
  - cbn. repeat split. ring.
  - cbn [map combine gae_backward discount_backward].
    destruct (IH dones values) as [E1 [E2 E3]];
      [now inversion Hd|now inversion Hv|].
    destruct (gae_backward gamma num1 _ next_value) as [[a n] l].
    destruct (discount_backward gamma _ next_value) as [R returns].
    cbn [fst snd hd map combine] in *. subst a n l.
    assert (E : (R - hd next_value values) * num1 * gamma
                  * (num1 - of_bool d)
                + (r + (num1 - of_bool d) * gamma * hd next_value values - v)
                = r + gamma * (if d then num0 else R) - v).
    { destruct d; cbn [of_bool]; ring. }
    rewrite E. repeat split.
Qed.

(** X9. With [tau = 1] and boolean done flags the advantages are the
    discounted returns less the values: [advantages[t]] is [returns[t] -
    values[t]], where the returns are those of [discount_rewards] with
    [next_value] as the bootstrap. *)
Theorem gae_tau_one_is_return_minus_value (gamma : A) (rewards : list A)
  (dones : list bool) (values : list A) (next_value : A) :
  length values = length rewards -> length rewards = length dones ->
  exists returns,
    discount_rewards gamma rewards dones next_value = Ok returns
    /\ generalized_advantage_estimate gamma num1 rewards
         (map of_bool dones) values next_value
       = Ok (map (fun p => fst p - snd p) (combine returns values)).
Proof.
  intros Hv Hd. eexists.
  split; [now apply discount_rewards_spec|].
  rewrite gae_estimate_spec by (rewrite ?length_map; lia).
  f_equal. unfold gae_spec, discount_spec.
  now apply gae_backward_tau_one.
Qed.

End RewardsMoreRing.

(** ** [Logger._episodes_length_rewards]: invariants and errors *)

Section LoggerEpisodesFacts.

Context {A : Type} {N : Num A}.
Local Open Scope num_scope.

Lemma first_element_read_error (e : step_entry A) (err : exn) :
  read_error e = Some err -> first_element e = Raise err.
Proof.
  destruct e as [r d|[|r rs] [|d ds]|r [|d ds]]; cbn; intros H;
    inversion H; reflexivity.
Qed.

Lemma first_element_full (e : step_entry A) :
  unreadable e = false -> exists r d, first_element e = Ok (r, d).
Proof.
  unfold unreadable.
  destruct e as [r d|[|r rs] [|d ds]|r [|d ds]]; cbn; intros H;
    try discriminate; eauto.
Qed.

Lemma first_element_done_flag (e : step_entry A) (r : A) (d : bool) :
  first_element e = Ok (r, d) -> done_flag e = Ok d.
Proof.
  destruct e as [r' d'|[|r' rs] [|d' ds]|r' [|d' ds]]; cbn; intros H;
    try discriminate; now inversion H.
Qed.

Lemma first_element_is_terminal (e : step_entry A) (r : A) (d : bool) :
  first_element e = Ok (r, d) -> is_terminal e = d.
Proof.
  intros H. unfold is_terminal.
  rewrite (first_element_done_flag e r d H). now destruct d.
Qed.

(** What one step of the loop does, by the kind of step. *)
Lemma elr_body_cases (st st' : elr_state A) (e : step_entry A) :
  elr_body st e = Ok st' ->
  (exists r,
      first_element e = Ok (r, false)
      /\ st' = {| episode_rewards := episode_rewards st;
                  episode_lengths := episode_lengths st;
                  accum := accum st + r;
                  length_ := (length_ st + 1)%nat |})
  \/ (exists r,
        first_element e = Ok (r, true)
        /\ st' = {| episode_rewards := episode_rewards st ++ [accum st];
                    episode_lengths := episode_lengths st ++ [length_ st];
                    accum := num0;
                    length_ := 0 |}).
Proof.
  unfold elr_body.
  destruct (first_element e) as [[r [|]]|err]; cbn; intros H;
    inversion H; eauto.
Qed.

Lemma elr_loop_invariant (steps : list (step_entry A)) (st st' : elr_state A) :
  for_in elr_body steps st = Ok st' ->
  (length (episode_rewards st) = length (episode_lengths st) ->
   length (episode_rewards st') = length (episode_lengths st'))
  /\ (list_sum (episode_lengths st') + length_ st' + terminal_count steps
      = list_sum (episode_lengths st) + length_ st + length steps)%nat
  /\ (steps <> [] -> episode_rewards st' <> [] \/ 0 < length_ st').
Proof.
  revert st. induction steps as [|e steps IH]; intros st H; cbn [for_in] in H.
  - inversion H. subst st'. unfold terminal_count. cbn.
    repeat split; [lia|congruence].
  - destruct (elr_body st e) as [st1|err] eqn:E; [|discriminate H].
    cbn [bind] in H. destruct (IH st1 H) as [I1 [I2 I3]].
    unfold terminal_count in *. cbn [filter length].
    destruct (elr_body_cases st st1 e E) as [[r [He ->]]|[r [He ->]]];
      rewrite (first_element_is_terminal e r _ He);
      cbn [episode_rewards episode_lengths accum length_ length] in *.
    + repeat split; [exact I1|lia|]. intros _.
      destruct steps as [|e' steps']; [|apply I3; congruence].
      inversion H. cbn. right. lia.
    + repeat split.
      * intros Hl. apply I1. rewrite !length_app. cbn. lia.
      * rewrite list_sum_app in I2. cbn in I2. lia.
      * intros _. destruct steps as [|e' steps']; [|apply I3; congruence].
        inversion H. cbn. left. now destruct (episode_rewards st).
Qed.

(** X10. The two lists [_episodes_length_rewards] returns have the same
    length; the lengths of the episodes and the number of terminal steps add
    up to the number of steps; and a history that is not empty gives at
    least one episode. *)
Theorem episodes_length_rewards_invariants (steps : list (step_entry A))
  (rewards : list A) (lengths : list nat) :
  _episodes_length_rewards steps = Ok (rewards, lengths) ->
  length rewards = length lengths
  /\ (list_sum lengths + terminal_count steps = length steps)%nat
  /\ (steps <> [] -> rewards <> []).
Proof.
  unfold _episodes_length_rewards.
  destruct (for_in elr_body steps _) as [st|err] eqn:E; [|discriminate].
  cbn [bind]. destruct (elr_loop_invariant steps _ st E) as [I1 [I2 I3]].
  cbn [episode_rewards episode_lengths accum length_ length list_sum] in *.
  specialize (I1 eq_refl). cbn in I2.
  destruct (Nat.ltb_spec 0 (length_ st)) as [Hpos|Hzero]; intros H;
    inversion H; subst.
  - rewrite !length_app, list_sum_app. cbn. repeat split; [lia|lia|].
    intros _. now destruct (episode_rewards st).
  - repeat split; [exact I1|lia|].
    intros Hne. destruct (I3 Hne); [assumption|lia].
Qed.

Lemma elr_loop_raises (before : list (step_entry A)) (e : step_entry A)
  (after : list (step_entry A)) (err : exn) (st : elr_state A) :
  existsb unreadable before = false ->
  read_error e = Some err ->
  for_in elr_body (before ++ e :: after) st = Raise err.
Proof.
  intros Hb He. revert st.
  induction before as [|e' before IH]; intros st; cbn [app for_in].
  - unfold elr_body. now rewrite (first_element_read_error e err He).
  - cbn [existsb] in Hb. apply orb_false_iff in Hb. destruct Hb as [He' Hb].
    unfold elr_body at 1.
    destruct (first_element_full e' He') as [r [d ->]]. cbn [bind].
    destruct d; cbn [negb bind]; now apply IH.
Qed.

Lemma elr_loop_returns (steps : list (step_entry A)) (st : elr_state A) :
  existsb unreadable steps = false ->
  exists st', for_in elr_body steps st = Ok st'.
Proof.
  revert st. induction steps as [|e steps IH]; intros st H; cbn [for_in].
  - eauto.
  - cbn [existsb] in H. apply orb_false_iff in H. destruct H as [He H].
    unfold elr_body at 1.
    destruct (first_element_full e He) as [r [d ->]]. cbn [bind].
    destruct d; cbn [negb bind]; now apply IH.
Qed.

(** X11. [_episodes_length_rewards] returns episodes when every step can
    be read, and otherwise raises the exception of the first step that
    cannot: [IndexError] for a numpy reward or done flag that is empty,
    [AttributeError] for a Python float reward beside a numpy done flag that
    is not empty. *)
Theorem episodes_length_rewards_errors :
  (forall steps : list (step_entry A),
      existsb unreadable steps = false ->
      exists rewards lengths,
        _episodes_length_rewards steps = Ok (rewards, lengths))
  /\ (forall (before : list (step_entry A)) (e : step_entry A)
             (after : list (step_entry A)) (err : exn),
        existsb unreadable before = false ->
        read_error e = Some err ->
        _episodes_length_rewards (before ++ e :: after) = Raise err)
  /\ (forall (r : A) (d : bool) (ds : list bool),
        read_error (Mixed r (d :: ds)) = Some AttributeError)
  /\ (forall e : step_entry A,
        read_error e = Some IndexError <->
        match e with
        | Plain _ _ => False
        | Batched r d => r = [] \/ d = []
        | Mixed _ d => d = []
        end).
Proof.
  unfold _episodes_length_rewards. repeat split.
  - intros steps H.
    destruct (elr_loop_returns steps
                {| episode_rewards := []; episode_lengths := [];
                   accum := num0; length_ := 0 |} H) as [st ->].
    cbn [bind]. destruct (0 <? length_ st); eauto.
  - intros before e after err Hb He.
    now rewrite (elr_loop_raises before e after err _ Hb He).
  - destruct e as [r d|[|r rs] [|d ds]|r [|d ds]]; cbn; intros H;
      try discriminate H; auto.
  - destruct e as [r d|[|r rs] [|d ds]|r [|d ds]]; cbn; intros H;
      try contradiction; try reflexivity; try discriminate H;
      destruct H as [H|H]; discriminate H.
Qed.

End LoggerEpisodesFacts.

Section LoggerEpisodesRing.

Context {A : Type} {N : Num A} {L : NumLaws A}.
Local Open Scope num_scope.

Add Ring num_ring_structure'' : num_ring.

Lemma fold_left_nadd_from (l : list A) (a : A) :
  fold_left nadd l a = a + accumulated l.
Proof.
  unfold accumulated. revert a.
  induction l as [|x l IH]; intros a; cbn [fold_left].
  - ring.
  - rewrite (IH (a + x)), (IH (num0 + x)). ring.
Qed.

Lemma accumulated_cons (x : A) (l : list A) :
  accumulated (x :: l) = x + accumulated l.
Proof.
  unfold accumulated at 1. cbn [fold_left]. rewrite fold_left_nadd_from. ring.
Qed.

Lemma accumulated_snoc (l : list A) (x : A) :
  accumulated (l ++ [x]) = accumulated l + x.
Proof. unfold accumulated. now rewrite fold_left_app. Qed.

Lemma elr_loop_rewards (steps : list (step_entry A)) (st st' : elr_state A) :
  for_in elr_body steps st = Ok st' ->
  (length_ st = 0 -> accum st = num0) ->
  accumulated (episode_rewards st') + accum st'
    = accumulated (episode_rewards st) + accum st
      + accumulated (running_rewards steps)
  /\ (length_ st' = 0 -> accum st' = num0).
Proof.
  revert st. induction steps as [|e steps IH]; intros st H H0;
    cbn [for_in] in H.
  - inversion H. subst st'. split; [|exact H0].
    unfold running_rewards, accumulated. cbn. ring.
  - destruct (elr_body st e) as [st1|err] eqn:E; [|discriminate H].
    cbn [bind] in H.
    unfold running_rewards. cbn [flat_map]. fold (running_rewards steps).
    destruct (elr_body_cases st st1 e E) as [[r [He ->]]|[r [He ->]]];
      rewrite He.
    + destruct (IH _ H) as [I1 I2]; [cbn; lia|].
      cbn [episode_rewards accum] in I1. split; [|exact I2].
      rewrite I1. cbn [app]. rewrite accumulated_cons. ring.
    + destruct (IH _ H) as [I1 I2]; [reflexivity|].
      cbn [episode_rewards accum] in I1. split; [|exact I2].
      rewrite I1, accumulated_snoc. cbn [app]. ring.
Qed.

(** X12. The rewards of the episodes add up to the rewards of the
    non-terminal steps: the reward of every terminal step is left out of the
    total. *)
Theorem episodes_rewards_total (steps : list (step_entry A))
  (rewards : list A) (lengths : list nat) :
  _episodes_length_rewards steps = Ok (rewards, lengths) ->
  accumulated rewards = accumulated (running_rewards steps).
Proof.
  unfold _episodes_length_rewards.
  destruct (for_in elr_body steps _) as [st|err] eqn:E; [|discriminate].
  cbn [bind].
  destruct (elr_loop_rewards steps _ st E) as [I1 I2]; [reflexivity|].
  cbn [episode_rewards accum] in I1.
  replace (accumulated []) with (num0 : A) in I1 by reflexivity.
  destruct (Nat.ltb_spec 0 (length_ st)) as [Hpos|Hzero]; intros H;
    inversion H; subst.
  - rewrite accumulated_snoc, I1. ring.
  - rewrite I2 in I1 by lia.
    transitivity (accumulated (episode_rewards st) + num0); [ring|].
    rewrite I1. ring.
Qed.

End LoggerEpisodesRing.

(** ** [Logger._episodes_stats]: the window of the statistics *)

Section LoggerStatsFacts.

Context {A : Type} {N : Num A}.
Local Open Scope num_scope.

Lemma done_flag_full (e : step_entry A) :
  empty_done e = false -> done_flag e = Ok (is_terminal e).
Proof.
  unfold is_terminal.
  destruct e as [r d|r [|d ds]|r [|d ds]]; cbn; intros H;
    try discriminate H; now destruct d.
Qed.

Lemma unreadable_empty_done (steps : list (step_entry A)) :
  existsb unreadable steps = false -> existsb empty_done steps = false.
Proof.
  induction steps as [|e steps IH]; [reflexivity|].
  cbn [existsb]. intros H. apply orb_false_iff in H. destruct H as [He H].
  rewrite (IH H), orb_false_r. unfold unreadable in He.
  destruct e as [r d|[|r rs] [|d ds]|r [|d ds]]; cbn in *;
    try discriminate He; reflexivity.
Qed.

Lemma terminal_count_cons (e : step_entry A) (steps : list (step_entry A)) :
  terminal_count (e :: steps)
    = ((if is_terminal e then 1 else 0) + terminal_count steps)%nat.
Proof. unfold terminal_count. cbn. now destruct (is_terminal e). Qed.

(** The scan of [_episodes_stats] over the steps numbered from [n]. *)
Lemma stats_scan_from (ep_interval : Z) (steps : list (step_entry A))
  (n : nat) :
  existsb empty_done steps = false ->
  for_in (stats_body ep_interval)
    (rev (combine (seq n (length steps)) steps)) (0, 0, 0%Z)
  = Ok (if (ep_interval + 1 <=? Z.of_nat (terminal_count steps))%Z
        then match first_terminal steps with
             | Some i => (n + i + 1)%nat
             | None => 0
             end
        else 0,
        match last_terminal steps with
        | Some i => (n + i)%nat
        | None => 0
        end,
        Z.of_nat (terminal_count steps)).
Proof.
  revert n. induction steps as [|e steps IH]; intros n H.
  - cbn. now destruct (ep_interval + 1 <=? 0)%Z.
  - cbn [existsb] in H. apply orb_false_iff in H. destruct H as [He H].
    cbn [length seq combine rev]. rewrite for_in_app, (IH (S n) H).
    cbn [bind for_in]. unfold stats_body.
    rewrite (done_flag_full e He). cbn [bind].
    rewrite terminal_count_cons. cbn [first_terminal last_terminal].
    destruct (is_terminal e); cbn [bind].
    + apply f_equal. apply f_equal2; [apply f_equal2|].
      * replace (Z.of_nat (1 + terminal_count steps))
          with (Z.of_nat (terminal_count steps) + 1)%Z by lia.
        destruct (Z.leb_spec (ep_interval + 1)
                    (Z.of_nat (terminal_count steps) + 1));
          [lia|].
        destruct (Z.leb_spec (ep_interval + 1)
                    (Z.of_nat (terminal_count steps))); [lia|reflexivity].
      * destruct (last_terminal steps) as [i|]; cbn; [|lia].
        replace (n + S i)%nat with (S (n + i)) by lia. reflexivity.
      * lia.
    + apply f_equal. apply f_equal2; [apply f_equal2|].
      * cbn [Nat.add].
        destruct (ep_interval + 1 <=? Z.of_nat (terminal_count steps))%Z;
          [|reflexivity].
        destruct (first_terminal steps) as [i|]; cbn; [lia|reflexivity].
      * destruct (last_terminal steps) as [i|]; [lia|reflexivity].
      * reflexivity.
Qed.

Lemma episodes_stats_window_stats (ep_interval : Z)
  (steps : list (step_entry A)) :
  existsb empty_done steps = false ->
  _episodes_stats steps ep_interval
    = window_stats
        (slice steps (window_start ep_interval steps) (window_end steps)).
Proof.
  intros H. unfold _episodes_stats, enumerate.
  rewrite (stats_scan_from ep_interval steps 0 H). cbn [bind Nat.add].
  unfold window_stats, window_start, window_end.
  reflexivity.
Qed.

(** X13. The window of [_episodes_stats].  On a history without an empty
    done array, the statistics are those of the steps from [start] up to, and
    without, the last terminal step, where [start] is 0 when the history has
    at most [ep_interval] terminal steps and one past the first terminal
    step of the history otherwise. *)
Theorem episodes_stats_window (ep_interval : Z)
  (steps : list (step_entry A)) :
  existsb empty_done steps = false ->
  _episodes_stats steps ep_interval
    = window_stats
        (slice steps (window_start ep_interval steps) (window_end steps)).
Proof.
  intros H. unfold _episodes_stats, enumerate.
  rewrite (stats_scan_from ep_interval steps 0 H). cbn [bind Nat.add].
  unfold window_stats, window_start, window_end.
  reflexivity.
Qed.

Lemma last_terminal_none (steps : list (step_entry A)) :
  existsb is_terminal steps = false -> last_terminal steps = None.
Proof.
  induction steps as [|e steps IH]; [reflexivity|].
  cbn [existsb last_terminal]. intros H.
  apply orb_false_iff in H. destruct H as [He H].
  now rewrite (IH H), He.
Qed.

(** X14. Without a terminal step after the first step of the history,
    [_episodes_stats] reports the defaults [[0.0]] and [[0.0]], whatever the
    rewards recorded: an episode in progress is not reported. *)
Theorem episodes_stats_default (ep_interval : Z)
  (steps : list (step_entry A)) :
  existsb empty_done steps = false ->
  existsb is_terminal (tl steps) = false ->
  _episodes_stats steps ep_interval
    = Ok {| stats_episode_rewards := [num0];
            stats_episode_lengths := [FloatLength num0] |}.
Proof.
  intros H Ht. rewrite (episodes_stats_window_stats ep_interval steps H).
  replace (window_end steps) with 0; [reflexivity|].
  unfold window_end. destruct steps as [|e steps]; [reflexivity|].
  cbn [tl last_terminal] in *. rewrite (last_terminal_none steps Ht).
  now destruct (is_terminal e).
Qed.

Lemma first_terminal_none (steps : list (step_entry A)) :
  existsb is_terminal steps = false -> first_terminal steps = None.
Proof.
  induction steps as [|e steps IH]; [reflexivity|].
  cbn [existsb first_terminal]. intros H.
  apply orb_false_iff in H. destruct H as [He H].
  now rewrite (IH H), He.
Qed.

Lemma terminal_count_none (steps : list (step_entry A)) :
  existsb is_terminal steps = false -> terminal_count steps = 0.
Proof.
  induction steps as [|e steps IH]; [reflexivity|].
  cbn [existsb]. intros H.
  apply orb_false_iff in H. destruct H as [He H].
  rewrite terminal_count_cons, He. now apply IH.
Qed.

Lemma terminal_count_app (steps run : list (step_entry A)) :
  terminal_count (steps ++ run)
    = (terminal_count steps + terminal_count run)%nat.
Proof. unfold terminal_count. now rewrite filter_app, length_app. Qed.

Lemma first_terminal_app_run (steps run : list (step_entry A)) :
  existsb is_terminal run = false ->
  first_terminal (steps ++ run) = first_terminal steps.
Proof.
  intros H. induction steps as [|e steps IH]; cbn [app first_terminal].
  - now apply first_terminal_none.
  - now rewrite IH.
Qed.

Lemma last_terminal_app_run (steps run : list (step_entry A)) :
  existsb is_terminal run = false ->
  last_terminal (steps ++ run) = last_terminal steps.
Proof.
  intros H. induction steps as [|e steps IH]; cbn [app last_terminal].
  - now apply last_terminal_none.
  - now rewrite IH.
Qed.

Lemma last_terminal_lt (steps : list (step_entry A)) (i : nat) :
  last_terminal steps = Some i -> i < length steps.
Proof.
  revert i. induction steps as [|e steps IH]; intros i; [discriminate|].
  cbn [last_terminal length].
  destruct (last_terminal steps) as [j|].
  - intros H. inversion H. specialize (IH j eq_refl). lia.
  - destruct (is_terminal e); intros H; inversion H. lia.
Qed.

Lemma slice_app_within {T : Type} (l l' : list T) (start stop : nat) :
  stop <= length l -> slice (l ++ l') start stop = slice l start stop.
Proof.
  intros H. unfold slice. rewrite skipn_app, firstn_app, length_skipn.
  replace (stop - start - (length l - start))%nat with 0 by lia.
  cbn [firstn]. now rewrite app_nil_r.
Qed.

(** X15. The steps recorded after the last terminal step, those of the
    episode in progress, do not change the statistics of
    [_episodes_stats]. *)
Theorem episodes_stats_ignores_running_episode (ep_interval : Z)
  (steps run : list (step_entry A)) :
  existsb empty_done (steps ++ run) = false ->
  existsb is_terminal run = false ->
  _episodes_stats (steps ++ run) ep_interval
    = _episodes_stats steps ep_interval.
Proof.
  intros H Hrun.
  assert (Hsteps : existsb empty_done steps = false).
  { rewrite existsb_app in H. now apply orb_false_iff in H. }
  rewrite (episodes_stats_window_stats ep_interval _ H),
    (episodes_stats_window_stats ep_interval _ Hsteps).
  unfold window_start, window_end.
  rewrite terminal_count_app, (terminal_count_none run Hrun), Nat.add_0_r.
  rewrite (first_terminal_app_run steps run Hrun),
    (last_terminal_app_run steps run Hrun).
  rewrite slice_app_within; [reflexivity|].
  destruct (last_terminal steps) as [i|] eqn:E; [|lia].
  apply last_terminal_lt in E. lia.
Qed.

Lemma existsb_firstn_false {T : Type} (f : T -> bool) (n : nat) (l : list T) :
  existsb f l = false -> existsb f (firstn n l) = false.
Proof.
  intros H. rewrite <- (firstn_skipn n l), existsb_app in H.
  now apply orb_false_iff in H.
Qed.

Lemma existsb_slice_false {T : Type} (f : T -> bool) (start stop : nat)
  (l : list T) :
  existsb f l = false -> existsb f (slice l start stop) = false.
Proof.
  intros H. unfold slice. apply existsb_firstn_false.
  rewrite <- (firstn_skipn start l), existsb_app in H.
  now apply orb_false_iff in H.
Qed.

Lemma elr_returns (steps : list (step_entry A)) :
  existsb unreadable steps = false ->
  exists rewards lengths,
    _episodes_length_rewards steps = Ok (rewards, lengths).
Proof.
  intros H. unfold _episodes_length_rewards.
  destruct (elr_loop_returns steps
              {| episode_rewards := []; episode_lengths := [];
                 accum := num0; length_ := 0 |} H) as [st ->].
  cbn [bind]. destruct (0 <? length_ st); eauto.
Qed.

Lemma elr_same_length (steps : list (step_entry A)) (rewards : list A)
  (lengths : list nat) :
  _episodes_length_rewards steps = Ok (rewards, lengths) ->
  length rewards = length lengths.
Proof.
  unfold _episodes_length_rewards.
  destruct (for_in elr_body steps _) as [st|err] eqn:E; [|discriminate].
  cbn [bind]. destruct (elr_loop_invariant steps _ st E) as [I1 _].
  specialize (I1 eq_refl).
  destruct (0 <? length_ st); intros H; inversion H; subst.
  - rewrite !length_app. cbn. lia.
  - exact I1.
Qed.

(** X20. On a history whose steps can all be read (no empty array, no
    Python float reward beside a numpy done flag) [_episodes_stats] returns
    statistics whose two lists are never empty and have the same length:
    when its window holds no episode, the lists are the defaults. *)
Theorem episodes_stats_never_empty (ep_interval : Z)
  (steps : list (step_entry A)) :
  existsb unreadable steps = false ->
  exists st,
    _episodes_stats steps ep_interval = Ok st
    /\ stats_episode_rewards st <> []
    /\ length (stats_episode_rewards st)
       = length (stats_episode_lengths st).
Proof.
  intros H.
  rewrite (episodes_stats_window_stats ep_interval steps
             (unreadable_empty_done steps H)).
  set (window := slice steps _ _).
  assert (Hw : existsb unreadable window = false)
    by now apply existsb_slice_false.
  destruct (elr_returns window Hw) as [rewards [lengths E]].
  pose proof (elr_same_length window rewards lengths E) as Hlen.
  unfold window_stats. rewrite E. cbn [bind]. eexists.
  split; [reflexivity|].
  cbn [stats_episode_rewards stats_episode_lengths].
  destruct rewards as [|r rewards]; destruct lengths as [|n lengths];
    try discriminate Hlen; cbn.
  - split; [discriminate|reflexivity].
  - split; [discriminate|]. rewrite length_map. now inversion Hlen.
Qed.

End LoggerStatsFacts.

(** ** [Logger._steps_stats] *)

Lemma dict_get_set_same {V : Type} (d : dict V) (key : string) (v : V) :
  dict_get (dict_set d key v) key = Done v.
Proof.
  induction d as [|[k v'] d IH]; cbn.
  - now rewrite String.eqb_refl.
  - destruct (String.eqb k key) eqn:E; cbn; now rewrite E.
Qed.

Lemma dict_get_set_other {V : Type} (d : dict V) (key key' : string) (v : V) :
  key <> key' -> dict_get (dict_set d key v) key' = dict_get d key'.
Proof.
  intros Hne. induction d as [|[k v'] d IH]; cbn.
  - destruct (String.eqb_spec key key'); [contradiction|reflexivity].
  - destruct (String.eqb_spec k key) as [->|Hk]; cbn.
    + destruct (String.eqb_spec key key'); [contradiction|reflexivity].
    + now rewrite IH.
Qed.

Lemma dict_get_In {V : Type} (d : dict V) (key : string) :
  In key (dict_keys d) -> exists v, dict_get d key = Done v.
Proof.
  induction d as [|[k v] d IH]; cbn; [contradiction|].
  intros [->|H].
  - rewrite String.eqb_refl. eauto.
  - destruct (String.eqb k key); eauto.
Qed.

Lemma dict_get_not_In {V : Type} (d : dict V) (key : string) :
  ~ In key (dict_keys d) -> dict_get d key = Failed (KeyError key).
Proof.
  induction d as [|[k v] d IH]; cbn; [reflexivity|].
  intros H. destruct (String.eqb_spec k key) as [->|Hk].
  - exfalso. apply H. now left.
  - apply IH. intros Hin. apply H. now right.
Qed.

Section LoggerStepsFacts.

Context {A : Type} {N : Num A}.

(** The loop over the logged keys: every key is reported from its index on,
    and with [update_index] its index moves to the last value logged. *)
Lemma steps_stats_loop (update_index : bool) (values : dict (list A))
  (keys : list string) (stats : dict (stat_value A)) (values_idx : dict Z) :
  NoDup keys ->
  (forall key, In key keys -> In key (dict_keys values)) ->
  (forall key, In key keys -> In key (dict_keys values_idx)) ->
  exists stats' values_idx',
    for_keys (steps_stats_body update_index values) keys (stats, values_idx)
      = Done (stats', values_idx')
    /\ (forall key vs idx,
          In key keys ->
          dict_get values key = Done vs ->
          dict_get values_idx key = Done idx ->
          dict_get stats' key = Done (FloatList (slice_from_int vs idx))
          /\ dict_get values_idx' key
             = Done (if update_index then (Z.of_nat (length vs) - 1)%Z
                     else idx))
    /\ (forall key,
          ~ In key keys ->
          dict_get stats' key = dict_get stats key
          /\ dict_get values_idx' key = dict_get values_idx key).
Proof.
  revert stats values_idx.
  induction keys as [|k keys IH]; intros stats values_idx Hnd Hv Hi.
  - exists stats, values_idx. cbn. repeat split; contradiction.
  - inversion Hnd as [|k' ks Hk Hnd']. subst.
    destruct (dict_get_In values k (Hv k (or_introl eq_refl))) as [vs Hvs].
    destruct (dict_get_In values_idx k (Hi k (or_introl eq_refl)))
      as [idx Hidx].
    set (stats1 := dict_set stats k (FloatList (slice_from_int vs idx))).
    set (idx1 := if update_index
                 then dict_set values_idx k (Z.of_nat (length vs) - 1)%Z
                 else values_idx).
    assert (Hbody : steps_stats_body update_index values (stats, values_idx) k
                    = Done (stats1, idx1)).
    { unfold steps_stats_body, stats1, idx1. rewrite Hidx, Hvs.
      cbn [obind]. destruct update_index; reflexivity. }
    cbn [for_keys]. rewrite Hbody. cbn [obind].
    assert (Hidx1 : forall key, key <> k ->
                    dict_get idx1 key = dict_get values_idx key).
    { intros key Hne. unfold idx1. destruct update_index; [|reflexivity].
      apply dict_get_set_other. congruence. }
    destruct (IH stats1 idx1 Hnd') as [stats' [idx' [E [In1 Out1]]]].
    { intros key Hin. apply Hv. now right. }
    { intros key Hin.
      destruct (dict_get_In values_idx key (Hi key (or_intror Hin)))
        as [i Hi'].
      assert (Hne : key <> k) by (intros ->; contradiction).
      rewrite <- (Hidx1 key Hne) in Hi'.
      destruct (in_dec string_dec key (dict_keys idx1)) as [|Hno];
        [assumption|].
      rewrite (dict_get_not_In idx1 key Hno) in Hi'. discriminate. }
    exists stats', idx'. split; [exact E|]. split.
    + intros key vs0 idx0 [<-|Hin] Hvs0 Hidx0.
      * destruct (Out1 k Hk) as [O1 O2]. rewrite O1, O2.
        rewrite Hvs in Hvs0. rewrite Hidx in Hidx0.
        inversion Hvs0. inversion Hidx0. subst.
        unfold stats1, idx1. rewrite dict_get_set_same. split; [reflexivity|].
        destruct update_index; [apply dict_get_set_same|exact Hidx].
      * assert (Hne : key <> k) by (intros ->; contradiction).
        apply In1; [exact Hin|exact Hvs0|].
        now rewrite (Hidx1 key Hne).
    + intros key Hno.
      assert (Hne : key <> k) by (intros ->; apply Hno; now left).
      destruct (Out1 key) as [O1 O2]; [intros Hin; apply Hno; now right|].
      rewrite O1, O2. unfold stats1.
      rewrite dict_get_set_other by congruence.
      split; [reflexivity|apply Hidx1; exact Hne].
Qed.

Lemma dict_get_Done_In {V : Type} (d : dict V) (key : string) (v : V) :
  dict_get d key = Done v -> In key (dict_keys d).
Proof.
  intros H. destruct (in_dec string_dec key (dict_keys d)) as [|Hno];
    [assumption|].
  rewrite (dict_get_not_In d key Hno) in H. discriminate.
Qed.

(** X16. [_steps_stats] on a window whose steps can all be read (no empty
    array, no Python float reward beside a numpy done flag), when every
    logged key has an index: it returns the dict of statistics; every logged
    key is reported with its values from its index on; with [update_index]
    its index becomes the position of the last value logged, and is left as
    it was otherwise; and [num_episodes] is the number of episodes of the
    window unless a logged key bears that name. *)
Theorem steps_stats_report (interval : Z) (all_steps : list (step_entry A))
  (values : dict (list A)) (values_idx : dict Z) (update_index : bool) :
  existsb unreadable (steps_window interval all_steps) = false ->
  NoDup (dict_keys values) ->
  (forall key, In key (dict_keys values) -> In key (dict_keys values_idx)) ->
  exists stats values_idx' rewards lengths,
    _steps_stats interval all_steps values values_idx update_index
      = Done (stats, values_idx')
    /\ _episodes_length_rewards (steps_window interval all_steps)
       = Ok (rewards, lengths)
    /\ (forall key vs idx,
          dict_get values key = Done vs ->
          dict_get values_idx key = Done idx ->
          dict_get stats key = Done (FloatList (slice_from_int vs idx))
          /\ dict_get values_idx' key
             = Done (if update_index then (Z.of_nat (length vs) - 1)%Z
                     else idx))
    /\ (~ In "num_episodes"%string (dict_keys values) ->
        dict_get stats "num_episodes" = Done (IntValue (length rewards))).
Proof.
  intros Hfull Hnd Hidx.
  destruct (elr_returns _ Hfull)
    as [rewards [lengths E]].
  unfold _steps_stats. rewrite E. cbn [lift obind].
  destruct (steps_stats_loop update_index values (dict_keys values)
              [("episode_rewards"%string, FloatList rewards);
               ("episode_lengths"%string, IntList lengths);
               ("num_episodes"%string, IntValue (length rewards))]
              values_idx Hnd (fun _ H => H) Hidx)
    as [stats [idx' [Eloop [Hin Hout]]]].
  exists stats, idx', rewards, lengths.
  split; [exact Eloop|]. split; [reflexivity|]. split.
  - intros key vs idx Hvs Hi.
    apply Hin; [|exact Hvs|exact Hi].
    now apply (dict_get_Done_In values key vs).
  - intros Hno. destruct (Hout _ Hno) as [-> _]. reflexivity.
Qed.

(** X17. The index [_steps_stats] leaves with [update_index] is the position
    of the last value logged, not the one after it: the next call reports
    that value again, before the values logged since. *)
Theorem steps_stats_reports_last_value_again (interval : Z)
  (all_steps all_steps' : list (step_entry A))
  (values values' : dict (list A)) (values_idx : dict Z) :
  existsb unreadable (steps_window interval all_steps) = false ->
  existsb unreadable (steps_window interval all_steps') = false ->
  NoDup (dict_keys values) ->
  (forall key, In key (dict_keys values) -> In key (dict_keys values_idx)) ->
  dict_keys values' = dict_keys values ->
  exists stats1 idx1 stats2 idx2,
    _steps_stats interval all_steps values values_idx true
      = Done (stats1, idx1)
    /\ _steps_stats interval all_steps' values' idx1 true
       = Done (stats2, idx2)
    /\ forall key vs ws,
        vs <> [] ->
        dict_get values key = Done vs ->
        dict_get values' key = Done (vs ++ ws) ->
        dict_get stats2 key
          = Done (FloatList (skipn (length vs - 1) vs ++ ws)).
Proof.
  intros Hfull Hfull' Hnd Hidx Hkeys.
  destruct (elr_returns _ Hfull)
    as [rewards [lengths E]].
  destruct (elr_returns _ Hfull')
    as [rewards' [lengths' E']].
  unfold _steps_stats. rewrite E, E'. cbn [lift obind].
  destruct (steps_stats_loop true values (dict_keys values)
              [("episode_rewards"%string, FloatList rewards);
               ("episode_lengths"%string, IntList lengths);
               ("num_episodes"%string, IntValue (length rewards))]
              values_idx Hnd (fun _ H => H) Hidx)
    as [stats1 [idx1 [E1 [In1 _]]]].
  assert (Hidx1 : forall key,
             In key (dict_keys values') -> In key (dict_keys idx1)).
  { intros key Hin. rewrite Hkeys in Hin.
    destruct (dict_get_In values key Hin) as [vs Hvs].
    destruct (dict_get_In values_idx key (Hidx key Hin)) as [i Hi].
    destruct (In1 key vs i Hin Hvs Hi) as [_ H1].
    now apply (dict_get_Done_In idx1 key _ H1). }
  destruct (steps_stats_loop true values' (dict_keys values')
              [("episode_rewards"%string, FloatList rewards');
               ("episode_lengths"%string, IntList lengths');
               ("num_episodes"%string, IntValue (length rewards'))]
              idx1 ltac:(now rewrite Hkeys) (fun _ H => H) Hidx1)
    as [stats2 [idx2 [E2 [In2 _]]]].
  exists stats1, idx1, stats2, idx2.
  split; [exact E1|]. split; [exact E2|].
  intros key vs ws Hne Hvs Hvs'.
  pose proof (dict_get_Done_In values key vs Hvs) as Hin.
  destruct (dict_get_In values_idx key (Hidx key Hin)) as [i Hi].
  destruct (In1 key vs i Hin Hvs Hi) as [_ H1].
  destruct (In2 key (vs ++ ws) (Z.of_nat (length vs) - 1)%Z) as [H2 _];
    [now rewrite Hkeys|exact Hvs'|exact H1|].
  rewrite H2. do 2 f_equal. unfold slice_from_int.
  destruct vs as [|v vs]; [congruence|]. cbn [length].
  destruct (Z.ltb_spec (Z.of_nat (S (length vs)) - 1) 0); [lia|].
  replace (Z.to_nat (Z.of_nat (S (length vs)) - 1)) with (length vs) by lia.
  rewrite skipn_app. cbn [length].
  replace (S (length vs) - 1) with (length vs) by lia.
  replace (length vs - S (length vs)) with 0 by lia.
  reflexivity.
Qed.

Lemma for_keys_app {S : Type} (body : S -> string -> outcome S)
  (keys keys' : list string) (s : S) :
  for_keys body (keys ++ keys') s
    = s' <~ for_keys body keys s ;; for_keys body keys' s'.
Proof.
  revert s. induction keys as [|k keys IH]; intros s; cbn.
  - reflexivity.
  - destruct (body s k); cbn; [apply IH|reflexivity].
Qed.

(** X18. A logged key without an index makes [_steps_stats] raise
    [KeyError] for that key: the first such key in the order of the dict,
    when the keys before it have an index. *)
Theorem steps_stats_missing_index (interval : Z)
  (all_steps : list (step_entry A)) (values : dict (list A))
  (values_idx : dict Z) (update_index : bool) (before after : list string)
  (key : string) :
  existsb unreadable (steps_window interval all_steps) = false ->
  NoDup (dict_keys values) ->
  dict_keys values = before ++ key :: after ->
  (forall k, In k before -> In k (dict_keys values_idx)) ->
  ~ In key (dict_keys values_idx) ->
  _steps_stats interval all_steps values values_idx update_index
    = Failed (KeyError key).
Proof.
  intros Hfull Hnd Hkeys Hbefore Hkey.
  destruct (elr_returns _ Hfull)
    as [rewards [lengths E]].
  unfold _steps_stats. rewrite E. cbn [lift obind]. cbv zeta.
  rewrite Hkeys, for_keys_app. rewrite Hkeys in Hnd.
  destruct (steps_stats_loop update_index values before
              [("episode_rewards"%string, FloatList rewards);
               ("episode_lengths"%string, IntList lengths);
               ("num_episodes"%string, IntValue (length rewards))]
              values_idx)
    as [stats [idx' [Eloop [_ Hout]]]].
  - now apply NoDup_app_remove_r in Hnd.
  - intros k Hin. rewrite Hkeys. apply in_or_app. now left.
  - exact Hbefore.
  - unfold dict in *. rewrite Eloop. cbn [obind for_keys].
    unfold steps_stats_body.
    destruct (Hout key) as [_ Hi].
    { apply NoDup_remove_2 in Hnd. intros Hin. apply Hnd.
      apply in_or_app. now left. }
    rewrite Hi, (dict_get_not_In values_idx key Hkey). reflexivity.
Qed.

(** X19. The window of [_steps_stats], [all_rewards[-interval:]]: the last
    [interval] steps when the history holds that many; the whole history
    when it holds fewer, and also when [interval] is 0; and for a negative
    [interval] the history without its first [-interval] steps. *)
Theorem steps_window_interval (interval : Z)
  (all_steps : list (step_entry A)) :
  ((0 < interval <= Z.of_nat (length all_steps))%Z ->
   exists earlier,
     all_steps = earlier ++ steps_window interval all_steps
     /\ Z.of_nat (length (steps_window interval all_steps)) = interval)
  /\ ((interval = 0 \/ Z.of_nat (length all_steps) <= interval)%Z ->
      steps_window interval all_steps = all_steps)
  /\ ((interval < 0)%Z ->
      steps_window interval all_steps
        = skipn (Z.to_nat (- interval)) all_steps).
Proof.
  unfold steps_window, slice_from_int. repeat split.
  - intros H. destruct (Z.ltb_spec (- interval) 0); [|lia].
    exists (firstn (length all_steps - Z.to_nat (- - interval)) all_steps).
    split; [now rewrite firstn_skipn|].
    rewrite length_skipn. lia.
  - intros [->|H].
    + reflexivity.
    + destruct (Z.ltb_spec (- interval) 0).
      * replace (length all_steps - Z.to_nat (- - interval)) with 0 by lia.
        reflexivity.
      * replace (Z.to_nat (- interval)) with 0 by lia. reflexivity.
  - intros H. destruct (Z.ltb_spec (- interval) 0); [lia|reflexivity].
Qed.

End LoggerStepsFacts.

(** ** Instances of the further properties on concrete inputs *)

Lemma discount_rewards_short_dones_witness :
  discount_rewards (A := Z) 2%Z [1; 2; 3]%Z [true; false] 0%Z
    = Raise IndexError.
Proof.
  exact (discount_rewards_short_dones (A := Z) 2%Z [1; 2; 3]%Z
           [true; false] 0%Z (le_n 3)).
Defined.

Lemma discount_rewards_extra_dones_witness :
  discount_rewards (A := Z) 2%Z [1; 2; 3]%Z
    ([false; true; false] ++ [true; true]) 5%Z
    = discount_rewards (A := Z) 2%Z [1; 2; 3]%Z [false; true; false] 5%Z
  /\ exists returns,
      discount_rewards (A := Z) 2%Z [1; 2; 3]%Z
        ([false; true; false] ++ [true; true]) 5%Z = Ok returns
      /\ length returns = 3.
Proof.
  exact (discount_rewards_extra_dones (A := Z) 2%Z [1; 2; 3]%Z
           [false; true; false] [true; true] 5%Z eq_refl).
Defined.

Lemma discount_rewards_concat_witness :
  exists later earlier,
    discount_rewards (A := Z) 2%Z [3; 4]%Z [false; false] 5%Z = Ok later
    /\ discount_rewards (A := Z) 2%Z [1; 2]%Z [false; false] (hd 5%Z later)
       = Ok earlier
    /\ discount_rewards (A := Z) 2%Z ([1; 2] ++ [3; 4])%Z
         ([false; false] ++ [false; false]) 5%Z = Ok (earlier ++ later).
Proof.
  exact (discount_rewards_concat (A := Z) 2%Z [1; 2]%Z [3; 4]%Z
           [false; false] [false; false] 5%Z eq_refl eq_refl).
Defined.

Lemma discount_rewards_scale_witness :
  exists returns,
    discount_rewards (A := Z) 2%Z [1; 2; 3]%Z [false; true; false] 5%Z
      = Ok returns
    /\ discount_rewards (A := Z) 2%Z (map (nmul 10%Z) [1; 2; 3]%Z)
         [false; true; false] (nmul 10%Z 5%Z)
       = Ok (map (nmul 10%Z) returns).
Proof.
  exact (discount_rewards_scale (A := Z) 10%Z 2%Z [1; 2; 3]%Z
           [false; true; false] 5%Z eq_refl).
Defined.

Lemma discount_rewards_gamma_zero_witness :
  discount_rewards (A := Z) 0%Z [1; 2; 3]%Z [false; true; false] 5%Z
    = Ok [1; 2; 3]%Z.
Proof.
  exact (discount_rewards_gamma_zero (A := Z) [1; 2; 3]%Z
           [false; true; false] 5%Z eq_refl).
Defined.

Lemma discount_rewards_all_terminal_witness :
  discount_rewards (A := Z) 2%Z [1; 2; 3]%Z (repeat true 3) 5%Z
    = Ok [1; 2; 3]%Z.
Proof.
  exact (discount_rewards_all_terminal (A := Z) 2%Z [1; 2; 3]%Z 5%Z).
Defined.

Lemma discount_rewards_bootstrap_weight_witness :
  exists returns,
    discount_rewards (A := Z) 2%Z [1; 2; 3]%Z (repeat false 3) 5%Z
      = Ok returns
    /\ index returns 0 = Ok 57%Z.
Proof.
  refine (discount_rewards_bootstrap_weight (A := Z) 2%Z [1; 2; 3]%Z 5%Z _).
  discriminate.
Defined.

Lemma gae_episode_isolation_witness :
  exists full cut,
    generalized_advantage_estimate (A := Z) 2%Z 3%Z [8; 8; 8]%Z [0; 1; 0]%Z
      [1; 2; 3]%Z 5%Z = Ok full
    /\ generalized_advantage_estimate (A := Z) 2%Z 3%Z
         (firstn 2 [8; 8; 8]%Z) (firstn 2 [0; 1; 0]%Z)
         (firstn 2 [1; 2; 3]%Z) 100%Z = Ok cut
    /\ firstn 2 full = cut.
Proof.
  exact (gae_episode_isolation (A := Z) 2%Z 3%Z [8; 8; 8]%Z [0; 1; 0]%Z
           [1; 2; 3]%Z 1 5%Z 100%Z eq_refl eq_refl eq_refl).
Defined.

Lemma gae_tau_one_is_return_minus_value_witness :
  exists returns,
    discount_rewards (A := Z) 2%Z [8; 8; 8]%Z [false; true; false] 5%Z
      = Ok returns
    /\ generalized_advantage_estimate (A := Z) 2%Z 1%Z [8; 8; 8]%Z
         (map of_bool [false; true; false]) [1; 2; 3]%Z 5%Z
       = Ok (map (fun p => nsub (fst p) (snd p))
               (combine returns [1; 2; 3]%Z)).
Proof.
  exact (gae_tau_one_is_return_minus_value (A := Z) 2%Z [8; 8; 8]%Z
           [false; true; false] [1; 2; 3]%Z 5%Z eq_refl eq_refl).
Defined.

Lemma episodes_length_rewards_invariants_witness :
  length [1; 0; 4; 6]%Z = length [1; 0; 1; 1]
  /\ list_sum [1; 0; 1; 1] + terminal_count test_history
     = length test_history
  /\ (test_history <> [] -> [1; 0; 4; 6]%Z <> []).
Proof.
  exact (episodes_length_rewards_invariants test_history [1; 0; 4; 6]%Z
           [1; 0; 1; 1] eq_refl).
Defined.

Lemma episodes_rewards_total_witness :
  accumulated [1; 0; 4; 6]%Z = accumulated (running_rewards test_history).
Proof.
  exact (episodes_rewards_total test_history [1; 0; 4; 6]%Z [1; 0; 1; 1]
           eq_refl).
Defined.

Lemma episodes_stats_window_witness :
  _episodes_stats test_history 1
    = window_stats (slice test_history 2 4).
Proof.
  exact (episodes_stats_window 1 test_history eq_refl).
Defined.

Lemma episodes_stats_default_witness :
  _episodes_stats [Plain 1%Z true; Plain 2%Z false; Plain 3%Z false] 10
    = Ok {| stats_episode_rewards := [0%Z];
            stats_episode_lengths := [FloatLength 0%Z] |}.
Proof.
  exact (episodes_stats_default 10
           [Plain 1%Z true; Plain 2%Z false; Plain 3%Z false]
           eq_refl eq_refl).
Defined.

Lemma episodes_stats_ignores_running_episode_witness :
  _episodes_stats (test_history ++ [Plain 7%Z false; Plain 8%Z false]) 1
    = _episodes_stats test_history 1.
Proof.
  exact (episodes_stats_ignores_running_episode 1 test_history
           [Plain 7%Z false; Plain 8%Z false] eq_refl eq_refl).
Defined.

Lemma episodes_stats_never_empty_witness :
  exists st,
    _episodes_stats test_history 1 = Ok st
    /\ stats_episode_rewards st <> []
    /\ length (stats_episode_rewards st)
       = length (stats_episode_lengths st).
Proof.
  exact (episodes_stats_never_empty 1 test_history eq_refl).
Defined.

Lemma test_values_NoDup : NoDup (dict_keys test_values).
Proof.
  constructor; [cbn; intros [H|[]]; discriminate H|].
  constructor; [intros []|constructor].
Defined.

Lemma steps_stats_report_witness :
  exists stats values_idx' rewards lengths,
    _steps_stats 3 test_history test_values test_values_idx true
      = Done (stats, values_idx')
    /\ _episodes_length_rewards (steps_window 3 test_history)
       = Ok (rewards, lengths)
    /\ (forall key vs idx,
          dict_get test_values key = Done vs ->
          dict_get test_values_idx key = Done idx ->
          dict_get stats key = Done (FloatList (slice_from_int vs idx))
          /\ dict_get values_idx' key
             = Done (if true then (Z.of_nat (length vs) - 1)%Z else idx))
    /\ (~ In "num_episodes"%string (dict_keys test_values) ->
        dict_get stats "num_episodes" = Done (IntValue (length rewards))).
Proof.
  exact (steps_stats_report 3 test_history test_values test_values_idx true
           eq_refl test_values_NoDup (fun _ H => H)).
Defined.

Lemma steps_stats_reports_last_value_again_witness :
  exists stats1 idx1 stats2 idx2,
    _steps_stats 3 test_history test_values test_values_idx true
      = Done (stats1, idx1)
    /\ _steps_stats 3 (test_history ++ [Plain 9%Z true])
         [("loss"%string, [1; 2; 3; 4]%Z); ("lr"%string, [7]%Z)] idx1 true
       = Done (stats2, idx2)
    /\ forall key vs ws,
        vs <> [] ->
        dict_get test_values key = Done vs ->
        dict_get [("loss"%string, [1; 2; 3; 4]%Z); ("lr"%string, [7]%Z)] key
          = Done (vs ++ ws) ->
        dict_get stats2 key
          = Done (FloatList (skipn (length vs - 1) vs ++ ws)).
Proof.
  exact (steps_stats_reports_last_value_again 3 test_history
           (test_history ++ [Plain 9%Z true]) test_values
           [("loss"%string, [1; 2; 3; 4]%Z); ("lr"%string, [7]%Z)]
           test_values_idx eq_refl eq_refl test_values_NoDup
           (fun _ H => H) eq_refl).
Defined.

Lemma steps_stats_missing_index_witness :
  _steps_stats 3 test_history test_values [("loss"%string, 1%Z)] true
    = Failed (KeyError "lr").
Proof.
  refine (steps_stats_missing_index 3 test_history test_values
            [("loss"%string, 1%Z)] true ["loss"%string] [] "lr"
            eq_refl test_values_NoDup eq_refl _ _).
  - intros k [<-|[]]. left. reflexivity.
  - intros [H|[]]. discriminate H.
Defined.

Lemma episodes_length_rewards_errors_witness :
  _episodes_length_rewards (A := Z)
    ([Plain 1%Z false] ++ Mixed 2%Z [true] :: [Plain 3%Z true])
    = Raise AttributeError.
Proof.
  exact (proj1 (proj2 (episodes_length_rewards_errors (A := Z)))
           [Plain 1%Z false] (Mixed 2%Z [true]) [Plain 3%Z true]
           AttributeError eq_refl eq_refl).
Defined.
